(** * TrickHLA configuration glue and formatting utility

    A shallow embedding of

    - [Modified_data/SpaceFOM/SpaceFOMPhysicalEntityObject.py],
    - [Modified_data/JEOD/JEODRefFrameTreeObject.py],
    - the object configuration block and the command line of
      [sims/SpaceFOM/SIM_wheelbot/RUN_wb1/input.py], and
    - [scripts/format_code.py],

    together with the properties the specification states about them and
    further properties read off the code.

    The Python classes [TrickHLAObjectConfig], [TrickHLAAttributeConfig],
    [SpaceFOMRefFrameObject], [SpaceFOMFederateConfig] and the module
    [trickhla_message] are imported by these files but are not part of the
    sources at hand; their behaviour is taken from the specification and every
    such definition says so in its documentation. *)

From Stdlib Require Import ZArith Ascii.
From stdpp Require Import base strings list gmap.

Local Open Scope string_scope.
Local Open Scope list_scope.

(** * Part I: the object/attribute mapping layer *)

Module HLA.

(** ** Python values that are only stored and forwarded

    Lifecycle hooks, manager objects and thread lists are opaque to the
    configuration layer.  A simulation object reached through a global name of
    the input file (for instance [sun_inertial.conditional]) is represented by
    that name. *)
Inductive pyobj : Type :=
| PyNone
| PyBool (b : bool)
| PyInt (z : Z)
| PyStr (s : string)
| PySim (path : string).

#[global] Instance pyobj_eq_dec : EqDecision pyobj.
Proof. solve_decision. Defined.

(** The integer constants exported by the [trick] module, which the input
    files reach as [trick.TrickHLA.X] or [trick.X].  Their values are not
    part of the sources at hand, so they are parameters of the model. *)
Class TrickConstants : Type := {
  LAG_COMPENSATION_NONE : Z;
  CONFIG_INITIALIZE : Z;
  CONFIG_CYCLIC : Z;
  ENCODING_NONE : Z;
  ENCODING_LITTLE_ENDIAN : Z;
  ENCODING_UNICODE_STRING : Z
}.

(** ** Backing simulation instances

    The only field of a backing instance this layer touches is its name.  The
    store maps the address of an instance (a [positive]) to that name;
    [set_name] is the setter the constructors call. *)
Definition set_name (l : positive) (name : string) (h : gmap positive string) :
  gmap positive string :=
  <[l := name]> h.

(** ** Errors of the mapping layer (section 7 of the specification) *)
Inductive HLAConfigError : Type :=
| ConfigurationError
| DuplicateAttributeError
| DanglingParentError
| MultipleRootsError.

#[global] Instance HLAConfigError_eq_dec : EqDecision HLAConfigError.
Proof. solve_decision. Defined.

(** ** Attribute descriptors

    Modelled from the spec: the class [TrickHLAAttributeConfig] is not in the
    sources.  Its constructor is called with seven positional arguments, which
    the data model of the specification names, in this order, [logical_name],
    [local_binding], [publish], [subscribe], [locally_owned], [update_policy]
    and [encoding].  The constructor stores them as given. *)
Record TrickHLAAttributeConfig : Type := {
  logical_name : string;
  local_binding : string;
  publish : bool;
  subscribe : bool;
  locally_owned : bool;
  update_policy : Z;
  encoding : Z
}.

#[global] Instance TrickHLAAttributeConfig_eq_dec :
  EqDecision TrickHLAAttributeConfig.
Proof. solve_decision. Defined.

(** ** Object descriptors

    The fields follow the positional arguments of the base-class constructor
    call in [SpaceFOMPhysicalEntityObject.__init__]; [hla_create] is the name
    under which [add_attributes] reads the create flag back. *)
Record TrickHLAObjectConfig : Type := {
  hla_create : bool;
  hla_instance_name : string;
  hla_FOM_name : string;
  hla_lag_comp : pyobj;
  hla_lag_comp_type : pyobj;
  hla_ownership : pyobj;
  hla_deleted : pyobj;
  hla_conditional : pyobj;
  hla_packing_instance : option positive;
  hla_manager_object : pyobj;
  hla_thread_IDs : pyobj;
  attributes : list TrickHLAAttributeConfig
}.

#[global] Instance TrickHLAObjectConfig_eq_dec : EqDecision TrickHLAObjectConfig.
Proof. solve_decision. Defined.

Definition with_attributes (attrs : list TrickHLAAttributeConfig)
  (o : TrickHLAObjectConfig) : TrickHLAObjectConfig :=
  {| hla_create := hla_create o;
     hla_instance_name := hla_instance_name o;
     hla_FOM_name := hla_FOM_name o;
     hla_lag_comp := hla_lag_comp o;
     hla_lag_comp_type := hla_lag_comp_type o;
     hla_ownership := hla_ownership o;
     hla_deleted := hla_deleted o;
     hla_conditional := hla_conditional o;
     hla_packing_instance := hla_packing_instance o;
     hla_manager_object := hla_manager_object o;
     hla_thread_IDs := hla_thread_IDs o;
     attributes := attrs |}.

(** ** Reference-frame descriptors

    Modelled from the spec: the class [SpaceFOMRefFrameObject] is not in the
    sources.  The specification describes it as an object descriptor with one
    more field, [parent_frame_name], absent only for the root.  The callers
    pass one name per frame; the specification calls it [fom_type_name], and
    it is stored as both names of the object part.  The parent's backing
    instance is passed next to the parent's name and kept with it. *)
Record SpaceFOMRefFrameObject : Type := {
  frame_object : TrickHLAObjectConfig;
  frame_S_define_instance_name : string;
  parent_S_define_instance : pyobj;
  parent_frame_name : option string
}.

#[global] Instance SpaceFOMRefFrameObject_eq_dec :
  EqDecision SpaceFOMRefFrameObject.
Proof. solve_decision. Defined.

Definition fom_type_name (f : SpaceFOMRefFrameObject) : string :=
  hla_FOM_name (frame_object f).

(** What a federate is handed: plain objects and reference frames. *)
Inductive descriptor : Type :=
| ObjectDescriptor (o : TrickHLAObjectConfig)
| ReferenceFrameDescriptor (f : SpaceFOMRefFrameObject).

#[global] Instance descriptor_eq_dec : EqDecision descriptor.
Proof. solve_decision. Defined.

(** Modelled from the spec: the class [SpaceFOMFederateConfig] is not in the
    sources.  Of the federate collaborator only the root frame and the list
    of descriptors handed over matter here. *)
Record SpaceFOMFederateConfig : Type := {
  root_frame : option SpaceFOMRefFrameObject;
  fed_objects : list descriptor
}.

(** ** The configuration pass

    One configuration pass owns the store of backing instances and the set of
    reference frames built so far (the registry of the specification).  A
    constructor or method either returns or raises; what it wrote before
    raising stays written, as in Python. *)
Record Sim : Type := {
  heap : gmap positive string;
  registry : list SpaceFOMRefFrameObject
}.

Definition M (A : Type) : Type := Sim → Sim * (HLAConfigError + A).

Definition ret {A} (a : A) : M A := λ s, (s, inr a).

Definition raise {A} (e : HLAConfigError) : M A := λ s, (s, inl e).

Definition bind {A B} (k : A → M B) (m : M A) : M B :=
  λ s, match m s with
       | (s', inl e) => (s', inl e)
       | (s', inr a) => k a s'
       end.

#[global] Instance M_ret : MRet M := @ret.
#[global] Instance M_bind : MBind M := @bind.

(** Methods that touch no store return or raise directly. *)
#[global] Instance result_ret : MRet (sum HLAConfigError) := λ A a, inr a.
#[global] Instance result_bind : MBind (sum HLAConfigError) :=
  λ A B k m, match m with inl e => inl e | inr a => k a end.

Definition lift {A} (r : HLAConfigError + A) : M A := λ s, (s, r).

Definition modify_heap (f : gmap positive string → gmap positive string) :
  M unit :=
  λ s, ({| heap := f (heap s); registry := registry s |}, inr tt).

Definition get_registry : M (list SpaceFOMRefFrameObject) :=
  λ s, (s, inr (registry s)).

Definition register_frame (f : SpaceFOMRefFrameObject) : M unit :=
  λ s, ({| heap := heap s; registry := registry s ++ [f] |}, inr tt).

(** The state after a computation and what it returned or raised. *)
Definition state_of {A} (r : Sim * (HLAConfigError + A)) : Sim := r.1.
Definition result_of {A} (r : Sim * (HLAConfigError + A)) :
  HLAConfigError + A := r.2.

(** ** [TrickHLAObjectConfig]: the base class *)

(** Modelled from the spec: the constructor of [TrickHLAObjectConfig] is not
    in the sources.  It is the [describe_object] of the specification: it
    rejects, with a [ConfigurationError], a create flag that comes with an
    empty instance name, and otherwise stores its arguments and starts with
    an empty attribute list. *)
Definition TrickHLAObjectConfig_init
  (thla_create : bool) (thla_instance_name thla_FOM_name : string)
  (thla_lag_comp thla_lag_comp_type thla_ownership thla_deleted
   thla_conditional : pyobj)
  (thla_packing_instance : option positive)
  (thla_manager_object thla_thread_IDs : pyobj) :
  HLAConfigError + TrickHLAObjectConfig :=
  if thla_create && bool_decide (thla_instance_name = "")
  then inl ConfigurationError
  else inr {| hla_create := thla_create;
              hla_instance_name := thla_instance_name;
              hla_FOM_name := thla_FOM_name;
              hla_lag_comp := thla_lag_comp;
              hla_lag_comp_type := thla_lag_comp_type;
              hla_ownership := thla_ownership;
              hla_deleted := thla_deleted;
              hla_conditional := thla_conditional;
              hla_packing_instance := thla_packing_instance;
              hla_manager_object := thla_manager_object;
              hla_thread_IDs := thla_thread_IDs;
              attributes := [] |}.

(** Modelled from the spec: the method [add_attribute] of
    [TrickHLAObjectConfig] is not in the sources.  It is the [add_attribute]
    of the specification: the logical name must not already exist in the
    attribute list, else the call fails with a [DuplicateAttributeError];
    otherwise the descriptor is appended. *)
Definition add_attribute (attribute : TrickHLAAttributeConfig)
  (self : TrickHLAObjectConfig) : HLAConfigError + TrickHLAObjectConfig :=
  if bool_decide (logical_name attribute ∈ logical_name <$> attributes self)
  then inl DuplicateAttributeError
  else inr (with_attributes (attributes self ++ [attribute]) self).

(** ** [SpaceFOMPhysicalEntityObject] *)

(** The subclass adds the name of the simulation object, from which the
    local bindings of the attributes are formed. *)
Record SpaceFOMPhysicalEntityObject : Type := {
  entity_object : TrickHLAObjectConfig;
  trick_entity_sim_obj_name : string
}.

(** The PhysicalEntity FOM name is fixed for the SpaceFOM. *)
Definition entity_FOM_name : string := "PhysicalEntity".

(** The keyword arguments of the constructor. *)
Record entity_options : Type := {
  entity_conditional : pyobj;
  entity_lag_comp : pyobj;
  entity_lag_comp_type : pyobj;
  entity_ownership : pyobj;
  entity_deleted : pyobj;
  entity_thla_manager_object : pyobj;
  entity_thread_IDs : pyobj
}.

Definition default_entity_options `{TrickConstants} : entity_options :=
  {| entity_conditional := PyNone;
     entity_lag_comp := PyNone;
     entity_lag_comp_type := PyInt LAG_COMPENSATION_NONE;
     entity_ownership := PyNone;
     entity_deleted := PyNone;
     entity_thla_manager_object := PyNone;
     entity_thread_IDs := PyNone |}.

(** [self.add_attribute( attribute )] on the subclass. *)
Definition self_add_attribute (attribute : TrickHLAAttributeConfig)
  (self : SpaceFOMPhysicalEntityObject) :
  HLAConfigError + SpaceFOMPhysicalEntityObject :=
  o ← add_attribute attribute (entity_object self);
  mret {| entity_object := o;
          trick_entity_sim_obj_name := trick_entity_sim_obj_name self |}.

(** [SpaceFOMPhysicalEntityObject.add_attributes], lines 81 to 185. *)
Definition add_attributes `{TrickConstants}
  (self : SpaceFOMPhysicalEntityObject) :
  HLAConfigError + SpaceFOMPhysicalEntityObject :=
  let self_hla_create := hla_create (entity_object self) in
  let entity_instance_name := trick_entity_sim_obj_name self in
  let trick_data_name := entity_instance_name +:+ ".pe_packing_data.name" in
  let attribute :=
    Build_TrickHLAAttributeConfig "name" trick_data_name
      self_hla_create (negb self_hla_create) self_hla_create
      (CONFIG_INITIALIZE + CONFIG_CYCLIC) ENCODING_UNICODE_STRING in
  self ← self_add_attribute attribute self;
  let trick_data_name := entity_instance_name +:+ ".pe_packing_data.type" in
  let attribute :=
    Build_TrickHLAAttributeConfig "type" trick_data_name
      self_hla_create (negb self_hla_create) self_hla_create
      (CONFIG_INITIALIZE + CONFIG_CYCLIC) ENCODING_UNICODE_STRING in
  self ← self_add_attribute attribute self;
  let trick_data_name := entity_instance_name +:+ ".pe_packing_data.status" in
  let attribute :=
    Build_TrickHLAAttributeConfig "status" trick_data_name
      self_hla_create (negb self_hla_create) self_hla_create
      (CONFIG_INITIALIZE + CONFIG_CYCLIC) ENCODING_UNICODE_STRING in
  self ← self_add_attribute attribute self;
  let trick_data_name :=
    entity_instance_name +:+ ".pe_packing_data.parent_frame" in
  let attribute :=
    Build_TrickHLAAttributeConfig "parent_reference_frame" trick_data_name
      self_hla_create (negb self_hla_create) self_hla_create
      (CONFIG_INITIALIZE + CONFIG_CYCLIC) ENCODING_UNICODE_STRING in
  self ← self_add_attribute attribute self;
  let trick_data_name := entity_instance_name +:+ ".stc_encoder.buffer" in
  let attribute :=
    Build_TrickHLAAttributeConfig "state" trick_data_name
      self_hla_create (negb self_hla_create) self_hla_create
      (CONFIG_INITIALIZE + CONFIG_CYCLIC) ENCODING_NONE in
  self ← self_add_attribute attribute self;
  let trick_data_name := entity_instance_name +:+ ".pe_packing_data.accel" in
  let attribute :=
    Build_TrickHLAAttributeConfig "acceleration" trick_data_name
      self_hla_create (negb self_hla_create) self_hla_create
      (CONFIG_INITIALIZE + CONFIG_CYCLIC) ENCODING_LITTLE_ENDIAN in
  self ← self_add_attribute attribute self;
  let trick_data_name :=
    entity_instance_name +:+ ".pe_packing_data.ang_accel" in
  let attribute :=
    Build_TrickHLAAttributeConfig "rotational_acceleration" trick_data_name
      self_hla_create (negb self_hla_create) self_hla_create
      (CONFIG_INITIALIZE + CONFIG_CYCLIC) ENCODING_LITTLE_ENDIAN in
  self ← self_add_attribute attribute self;
  let trick_data_name := entity_instance_name +:+ ".pe_packing_data.cm" in
  let attribute :=
    Build_TrickHLAAttributeConfig "center_of_mass" trick_data_name
      self_hla_create (negb self_hla_create) self_hla_create
      (CONFIG_INITIALIZE + CONFIG_CYCLIC) ENCODING_LITTLE_ENDIAN in
  self ← self_add_attribute attribute self;
  let trick_data_name := entity_instance_name +:+ ".quat_encoder.buffer" in
  let attribute :=
    Build_TrickHLAAttributeConfig "body_wrt_structural" trick_data_name
      self_hla_create (negb self_hla_create) self_hla_create
      (CONFIG_INITIALIZE + CONFIG_CYCLIC) ENCODING_NONE in
  self ← self_add_attribute attribute self;
  mret self.

(** [SpaceFOMPhysicalEntityObject.__init__], lines 28 to 71.  The name of the
    backing instance is written before the base-class constructor runs. *)
Definition SpaceFOMPhysicalEntityObject_init `{TrickConstants}
  (create_entity_object : bool) (entity_instance_name : string)
  (entity_S_define_instance : positive)
  (entity_S_define_instance_name : string)
  (opts : entity_options) : M SpaceFOMPhysicalEntityObject :=
  let entity_federation_instance_name := entity_instance_name in
  let self_trick_entity_sim_obj_name := entity_S_define_instance_name in
  (if create_entity_object
   then modify_heap (set_name entity_S_define_instance entity_instance_name)
   else modify_heap (set_name entity_S_define_instance "")) ;;
  o ← lift (TrickHLAObjectConfig_init
              create_entity_object
              entity_instance_name
              entity_FOM_name
              (entity_lag_comp opts)
              (entity_lag_comp_type opts)
              (entity_ownership opts)
              (entity_deleted opts)
              (entity_conditional opts)
              (Some entity_S_define_instance)
              (entity_thla_manager_object opts)
              (entity_thread_IDs opts));
  lift (add_attributes
          {| entity_object := o;
             trick_entity_sim_obj_name := self_trick_entity_sim_obj_name |}).

(** ** [SpaceFOMRefFrameObject] and the federate *)

(** The keyword arguments the callers of [SpaceFOMRefFrameObject] use. *)
Record frame_options : Type := {
  frame_conditional : pyobj;
  frame_lag_comp : pyobj;
  frame_lag_comp_type : pyobj;
  frame_ownership : pyobj;
  frame_deleted : pyobj;
  frame_thread_IDs : pyobj
}.

Definition default_frame_options `{TrickConstants} : frame_options :=
  {| frame_conditional := PyNone;
     frame_lag_comp := PyNone;
     frame_lag_comp_type := PyInt LAG_COMPENSATION_NONE;
     frame_ownership := PyNone;
     frame_deleted := PyNone;
     frame_thread_IDs := PyNone |}.

(** Modelled from the spec: the constructor of [SpaceFOMRefFrameObject] is
    not in the sources.  It is the [describe_reference_frame] of the
    specification.  A parent name that is the [fom_type_name] of no existing
    descriptor is a [DanglingParentError]; a frame built without a parent is
    the root.  The rest is the contract of [describe_object]: the backing
    instance is tagged with the name when the frame is created here and with
    the empty string otherwise, and a create flag with an empty name is a
    [ConfigurationError].  A descriptor that was built exists from then
    on.  The specification recommends a check for a second root and says the
    sources have none; none is made here. *)
Definition SpaceFOMRefFrameObject_init
  (create_frame_object : bool) (frame_name : string)
  (frame_S_define_instance : positive)
  (frame_S_define_instance_name : string)
  (parent : option (pyobj * string))
  (opts : frame_options) : M SpaceFOMRefFrameObject :=
  existing ← get_registry;
  parent_link ←
    match parent with
    | None => mret (PyNone, None)
    | Some (parent_instance, parent_name) =>
        if bool_decide (parent_name ∈ fom_type_name <$> existing)
        then mret (parent_instance, Some parent_name)
        else raise DanglingParentError
    end;
  modify_heap (set_name frame_S_define_instance
                 (if create_frame_object then frame_name else "")) ;;
  o ← lift (TrickHLAObjectConfig_init
              create_frame_object frame_name frame_name
              (frame_lag_comp opts)
              (frame_lag_comp_type opts)
              (frame_ownership opts)
              (frame_deleted opts)
              (frame_conditional opts)
              (Some frame_S_define_instance)
              PyNone
              (frame_thread_IDs opts));
  let f := {| frame_object := o;
              frame_S_define_instance_name := frame_S_define_instance_name;
              parent_S_define_instance := parent_link.1;
              parent_frame_name := parent_link.2 |} in
  register_frame f ;; mret f.

(** Modelled from the spec: [SpaceFOMFederateConfig.add_fed_object] is not in
    the sources.  It is the [register_with_federate] of the specification, a
    pure hand-off of a fully built descriptor. *)
Definition add_fed_object (d : descriptor) (federate : SpaceFOMFederateConfig) :
  SpaceFOMFederateConfig :=
  {| root_frame := root_frame federate;
     fed_objects := fed_objects federate ++ [d] |}.

(** Modelled from the spec: [SpaceFOMFederateConfig.set_root_frame] is not in
    the sources.  Its caller describes it: it sets the root frame and adds it
    to the federate. *)
Definition set_root_frame (f : SpaceFOMRefFrameObject)
  (federate : SpaceFOMFederateConfig) : SpaceFOMFederateConfig :=
  {| root_frame := Some f;
     fed_objects := fed_objects federate ++ [ReferenceFrameDescriptor f] |}.

(** ** [JEODRefFrameTreeObject] *)

(** The planetary reference frames of the JEOD tree instance. *)
Record tree_instance : Type := {
  ssbary_frame_ptr : positive;
  sun_frame_ptr : positive;
  embary_frame_ptr : positive;
  earth_frame_ptr : positive;
  moon_frame_ptr : positive;
  mars_frame_ptr : positive;
  earth_pfix_frame_ptr : positive;
  moon_pfix_frame_ptr : positive;
  mars_pfix_frame_ptr : positive
}.

(** The keyword arguments every non-root frame of the tree is built with:
    the hooks of the simulation object [sim_object]. *)
Definition hooks_of (sim_object : string) (lag_comp_type : pyobj) :
  frame_options :=
  {| frame_conditional := PySim (sim_object +:+ ".conditional");
     frame_lag_comp := PySim (sim_object +:+ ".lag_compensation");
     frame_lag_comp_type := lag_comp_type;
     frame_ownership := PySim (sim_object +:+ ".ownership_handler");
     frame_deleted := PySim (sim_object +:+ ".deleted_callback");
     frame_thread_IDs := PyNone |}.

(** [JEODRefFrameTreeObject.__init__], lines 37 to 181.  The result is the
    federate after the nine frames were handed to it. *)
Definition JEODRefFrameTreeObject_init `{TrickConstants}
  (federate_instance : SpaceFOMFederateConfig)
  (tree : tree_instance)
  (create_frame_objects : bool)
  (lag_comp_type : pyobj) : M SpaceFOMFederateConfig :=
  let federate := federate_instance in
  let ssbary_frame := ssbary_frame_ptr tree in
  let sun_frame := sun_frame_ptr tree in
  let embary_frame := embary_frame_ptr tree in
  let earth_frame := earth_frame_ptr tree in
  let moon_frame := moon_frame_ptr tree in
  let mars_frame := mars_frame_ptr tree in
  let earth_pfix_frame := earth_pfix_frame_ptr tree in
  let moon_pfix_frame := moon_pfix_frame_ptr tree in
  let mars_pfix_frame := mars_pfix_frame_ptr tree in
  ssbary_frame_obj ←
    SpaceFOMRefFrameObject_init create_frame_objects
      "SolarSystemBarycentricInertial" ssbary_frame
      "solar_system_barycenter.frame_packing"
      None default_frame_options;
  let federate := set_root_frame ssbary_frame_obj federate in
  sun_frame_obj ←
    SpaceFOMRefFrameObject_init create_frame_objects
      "SunCentricInertial" sun_frame
      "sun_inertial.frame_packing"
      (Some (PySim "solar_system_barycenter.frame_packing",
             "SolarSystemBarycentricInertial"))
      (hooks_of "sun_inertial" lag_comp_type);
  let federate :=
    add_fed_object (ReferenceFrameDescriptor sun_frame_obj) federate in
  embary_frame_obj ←
    SpaceFOMRefFrameObject_init create_frame_objects
      "EarthMoonBarycentricInertial" embary_frame
      "earth_moon_barycenter.frame_packing"
      (Some (PySim "solar_system_barycenter.frame_packing",
             "SolarSystemBarycentricInertial"))
      (hooks_of "earth_moon_barycenter" lag_comp_type);
  let federate :=
    add_fed_object (ReferenceFrameDescriptor embary_frame_obj) federate in
  earth_frame_obj ←
    SpaceFOMRefFrameObject_init create_frame_objects
      "EarthMJ2000Eq" earth_frame
      "earth_centered_inertial.frame_packing"
      (Some (PySim "earth_moon_barycenter.frame_packing",
             "EarthMoonBarycentricInertial"))
      (hooks_of "earth_centered_inertial" lag_comp_type);
  let federate :=
    add_fed_object (ReferenceFrameDescriptor earth_frame_obj) federate in
  moon_frame_obj ←
    SpaceFOMRefFrameObject_init create_frame_objects
      "MoonCentricInertial" moon_frame
      "moon_centered_inertial.frame_packing"
      (Some (PySim "earth_moon_barycenter.frame_packing",
             "EarthMoonBarycentricInertial"))
      (hooks_of "moon_centered_inertial" lag_comp_type);
  let federate :=
    add_fed_object (ReferenceFrameDescriptor moon_frame_obj) federate in
  mars_frame_obj ←
    SpaceFOMRefFrameObject_init create_frame_objects
      "MarsCentricInertial" mars_frame
      "mars_centered_inertial.frame_packing"
      (Some (PySim "solar_system_barycenter.frame_packing",
             "SolarSystemBarycentricInertial"))
      (hooks_of "mars_centered_inertial" lag_comp_type);
  let federate :=
    add_fed_object (ReferenceFrameDescriptor mars_frame_obj) federate in
  earth_pfix_frame_obj ←
    SpaceFOMRefFrameObject_init create_frame_objects
      "EarthCentricFixed" earth_pfix_frame
      "earth_centered_fixed.frame_packing"
      (Some (PySim "earth_centered_inertial.frame_packing",
             "EarthMJ2000Eq"))
      (hooks_of "earth_centered_fixed" lag_comp_type);
  let federate :=
    add_fed_object (ReferenceFrameDescriptor earth_pfix_frame_obj) federate in
  moon_pfix_frame_obj ←
    SpaceFOMRefFrameObject_init create_frame_objects
      "MoonCentricFixed" moon_pfix_frame
      "moon_centered_fixed.frame_packing"
      (Some (PySim "moon_centered_inertial.frame_packing",
             "MoonCentricInertial"))
      (hooks_of "moon_centered_fixed" lag_comp_type);
  let federate :=
    add_fed_object (ReferenceFrameDescriptor moon_pfix_frame_obj) federate in
  mars_pfix_frame_obj ←
    SpaceFOMRefFrameObject_init create_frame_objects
      "MarsCentricFixed" mars_pfix_frame
      "mars_centered_fixed.frame_packing"
      (Some (PySim "mars_centered_inertial.frame_packing",
             "MarsCentricInertial"))
      (hooks_of "mars_centered_fixed" lag_comp_type);
  let federate :=
    add_fed_object (ReferenceFrameDescriptor mars_pfix_frame_obj) federate in
  mret federate.

(** ** The wheelbot object, [RUN_wb1/input.py] lines 192 to 198 *)
Definition wheelbot_object_config `{TrickConstants}
  (federate : SpaceFOMFederateConfig) :
  HLAConfigError + SpaceFOMFederateConfig :=
  obj ← TrickHLAObjectConfig_init true "Wheelbot_hla_entity" "PhysicalEntity"
          PyNone PyNone PyNone PyNone (PyBool false) None PyNone PyNone;
  let att0 :=
    Build_TrickHLAAttributeConfig "state" "veh.vehicle.position"
      true false true CONFIG_CYCLIC ENCODING_LITTLE_ENDIAN in
  obj ← add_attribute att0 obj;
  mret (add_fed_object (ObjectDescriptor obj) federate).

(** ** What it means for a set of frames to be a tree *)

Definition is_root (f : SpaceFOMRefFrameObject) : bool :=
  bool_decide (parent_frame_name f = None).

Definition is_named (name : string) (f : SpaceFOMRefFrameObject) : bool :=
  bool_decide (fom_type_name f = name).

(** Following [parent_frame_name] links from [f] inside [frames] ends at a
    frame without parent. *)
Inductive reaches_root (frames : list SpaceFOMRefFrameObject) :
  SpaceFOMRefFrameObject → Prop :=
| reaches_root_here f :
    f ∈ frames → parent_frame_name f = None → reaches_root frames f
| reaches_root_up f p g :
    f ∈ frames → parent_frame_name f = Some p →
    g ∈ frames → fom_type_name g = p →
    reaches_root frames g → reaches_root frames f.

(** The same, as a function: the number of links from [f] to a frame without
    parent, looking for at most [fuel] links. *)
Fixpoint depth (fuel : nat) (frames : list SpaceFOMRefFrameObject)
  (f : SpaceFOMRefFrameObject) : option nat :=
  match parent_frame_name f with
  | None => Some 0
  | Some p =>
      match fuel with
      | 0 => None
      | S fuel' =>
          match filter (λ g, is_named p g = true) frames with
          | g :: _ => S <$> depth fuel' frames g
          | [] => None
          end
      end
  end.

Record frame_tree (frames : list SpaceFOMRefFrameObject)
  (root : SpaceFOMRefFrameObject) : Prop := {
  tree_single_root :
    filter (λ f, is_root f = true) frames = [root];
  tree_parent_resolves :
    ∀ f p, f ∈ frames → parent_frame_name f = Some p →
      ∃ g, filter (λ g, is_named p g = true) frames = [g] ∧ g ≠ f;
  tree_root_reachable :
    ∀ f, f ∈ frames → reaches_root frames f
}.

(** A configuration pass starts with nothing built. *)
Definition empty_sim : Sim := {| heap := ∅; registry := [] |}.

(** ** Vocabulary for the statements *)

(** A call returned rather than raised. *)
Definition succeeds {A} (r : HLAConfigError + A) : Prop := ∃ a, r = inr a.

(** The creator publishes, everyone else subscribes. *)
Definition creator_publishes (create : bool) (a : TrickHLAAttributeConfig) :
  Prop :=
  publish a = create ∧ subscribe a = negb create.

(** The descriptor a call of the frame constructor builds when it returns. *)
Definition built_frame (create : bool) (name : string) (l : positive)
  (sname : string) (parent : option (pyobj * string)) (opts : frame_options) :
  SpaceFOMRefFrameObject :=
  {| frame_object :=
       {| hla_create := create;
          hla_instance_name := name;
          hla_FOM_name := name;
          hla_lag_comp := frame_lag_comp opts;
          hla_lag_comp_type := frame_lag_comp_type opts;
          hla_ownership := frame_ownership opts;
          hla_deleted := frame_deleted opts;
          hla_conditional := frame_conditional opts;
          hla_packing_instance := Some l;
          hla_manager_object := PyNone;
          hla_thread_IDs := frame_thread_IDs opts;
          attributes := [] |};
     frame_S_define_instance_name := sname;
     parent_S_define_instance := from_option fst PyNone parent;
     parent_frame_name := snd <$> parent |}.

Definition parent_exists (parent : option (pyobj * string))
  (existing : list SpaceFOMRefFrameObject) : Prop :=
  match parent with
  | None => True
  | Some (_, parent_name) => parent_name ∈ fom_type_name <$> existing
  end.

(** Every frame names, as its parent, a frame that was built before it. *)
Definition parents_first (frames : list SpaceFOMRefFrameObject) : Prop :=
  ∀ i f p, frames !! i = Some f → parent_frame_name f = Some p →
    ∃ j g, j < i ∧ frames !! j = Some g ∧ fom_type_name g = p.

(** ** Examples to run the definitions on *)

Definition example_constants : TrickConstants :=
  {| LAG_COMPENSATION_NONE := 0;
     CONFIG_INITIALIZE := 2;
     CONFIG_CYCLIC := 8;
     ENCODING_NONE := 3;
     ENCODING_LITTLE_ENDIAN := 2;
     ENCODING_UNICODE_STRING := 8 |}.

(** The first four frames of the tree, built one at a time. *)
Definition ssbary_first : M SpaceFOMRefFrameObject :=
  SpaceFOMRefFrameObject_init true "SolarSystemBarycentricInertial" 1
    "solar_system_barycenter.frame_packing" None
    (@default_frame_options example_constants).

Definition sun_second : M SpaceFOMRefFrameObject :=
  SpaceFOMRefFrameObject_init true "SunCentricInertial" 2
    "sun_inertial.frame_packing"
    (Some (PySim "solar_system_barycenter.frame_packing",
           "SolarSystemBarycentricInertial"))
    (@default_frame_options example_constants).

Definition embary_frame : M SpaceFOMRefFrameObject :=
  SpaceFOMRefFrameObject_init true "EarthMoonBarycentricInertial" 3
    "earth_moon_barycenter.frame_packing"
    (Some (PySim "solar_system_barycenter.frame_packing",
           "SolarSystemBarycentricInertial"))
    (@default_frame_options example_constants).

Definition earth_frame : M SpaceFOMRefFrameObject :=
  SpaceFOMRefFrameObject_init true "EarthMJ2000Eq" 4
    "earth_centered_inertial.frame_packing"
    (Some (PySim "earth_moon_barycenter.frame_packing",
           "EarthMoonBarycentricInertial"))
    (@default_frame_options example_constants).

(** The wheelbot object before and after its attribute was added. *)
Definition wheelbot_object : TrickHLAObjectConfig :=
  {| hla_create := true;
     hla_instance_name := "Wheelbot_hla_entity";
     hla_FOM_name := "PhysicalEntity";
     hla_lag_comp := PyNone;
     hla_lag_comp_type := PyNone;
     hla_ownership := PyNone;
     hla_deleted := PyNone;
     hla_conditional := PyBool false;
     hla_packing_instance := None;
     hla_manager_object := PyNone;
     hla_thread_IDs := PyNone;
     attributes := [] |}.

Definition wheelbot_state `{TrickConstants} : TrickHLAAttributeConfig :=
  {| logical_name := "state";
     local_binding := "veh.vehicle.position";
     publish := true;
     subscribe := false;
     locally_owned := true;
     update_policy := CONFIG_CYCLIC;
     encoding := ENCODING_LITTLE_ENDIAN |}.

(** A physical entity as the constructor leaves it for [add_attributes], and
    what [add_attributes] makes of it. *)
Definition example_entity : SpaceFOMPhysicalEntityObject :=
  {| entity_object :=
       {| hla_create := true;
          hla_instance_name := "Lander";
          hla_FOM_name := entity_FOM_name;
          hla_lag_comp := PyNone;
          hla_lag_comp_type := PyInt 0;
          hla_ownership := PyNone;
          hla_deleted := PyNone;
          hla_conditional := PyNone;
          hla_packing_instance := Some 1%positive;
          hla_manager_object := PyNone;
          hla_thread_IDs := PyNone;
          attributes := [] |};
     trick_entity_sim_obj_name := "lander" |}.

Definition example_entity_built : SpaceFOMPhysicalEntityObject :=
  Eval vm_compute in
    match @add_attributes example_constants example_entity with
    | inr self => self
    | inl _ => example_entity
    end.

End HLA.


(** * Part II: the formatting utility, [scripts/format_code.py] *)

Module FormatCode.

(** ** Programs that talk to the operating system

    The script reads the environment and the file system, prints messages,
    and changes the file system.  A program is a tree: a leaf returns or
    stops the process; a node asks a question and continues with the answer,
    prints and continues, or performs an action and continues with whether it
    went through. *)

Inductive exn : Type :=
| NameError (name : string)
| IndexError
| OSError.

(** How the process can end other than by reaching the end of the script. *)
Inductive stop : Type :=
| Failure (text : string)
| Uncaught (e : exn)
| SysExit.

Inductive message : Type :=
| Status (text : string)
| Warning (text : string)
| Error (text : string)
| Success (text : string).

Inductive query : Type → Type :=
| Getenv (name : string) : query (option string)
| Isdir (path : string) : query bool
| Isfile (path : string) : query bool
| Islink (path : string) : query bool
| Listdir (path : string) : query (list string)
| Walk (top : string) : query (list (string * list string * list string))
| Abspath_curdir : query string
| Raw_input (prompt : string) : query string.

Inductive action : Type :=
| Chdir (path : string)
| Mkdir (path : string)
| Symlink (src dst : string)
| Remove (path : string)
| Removedirs (path : string)
| System (command : string).

Inductive Proc (A : Type) : Type :=
| Ret (a : A)
| Stop (s : stop)
| Ask {X : Type} (q : query X) (k : X → Proc A)
| Say (m : message) (k : Proc A)
| Act (a : action) (k : bool → Proc A).

Arguments Ret {A} a.
Arguments Stop {A} s.
Arguments Ask {A X} q k.
Arguments Say {A} m k.
Arguments Act {A} a k.

Fixpoint bind {A B} (p : Proc A) (f : A → Proc B) : Proc B :=
  match p with
  | Ret a => f a
  | Stop s => Stop s
  | Ask q k => Ask q (λ x, bind (k x) f)
  | Say m k => Say m (bind k f)
  | Act a k => Act a (λ ok, bind (k ok) f)
  end.

Declare Scope proc_scope.
Delimit Scope proc_scope with proc.
Bind Scope proc_scope with Proc.
Notation "x ← y ; z" := (bind y (λ x, z))
  (at level 20, y at level 100, z at level 200, only parsing) : proc_scope.
Notation "x ;; z" := (bind x (λ _, z))
  (at level 100, z at level 200, only parsing, right associativity) :
  proc_scope.
Local Open Scope proc_scope.

Definition ask {X} (q : query X) : Proc X := Ask q Ret.

(** An [os] call that changes something raises [OSError] when the system
    refuses it. *)
Definition act (a : action) : Proc unit :=
  Act a (λ ok, if ok then Ret tt else Stop (Uncaught OSError)).

(** [os.system] returns the exit status, which the script ignores. *)
Definition os_system (command : string) : Proc unit :=
  Act (System command) (λ _, Ret tt).

Definition pass : Proc unit := Ret tt.

Fixpoint for_each {A} (l : list A) (body : A → Proc unit) : Proc unit :=
  match l with
  | [] => Ret tt
  | x :: l' => body x ;; for_each l' body
  end.

(** ** [TrickHLAMessage] *)

(** Modelled from the spec: the module [trickhla_message] is not in the
    sources.  [TrickHLAMessage.failure] reports an error message and
    terminates the process immediately; the other methods print and
    return. *)
Definition failure {A} (text : string) : Proc A := Stop (Failure text).
Definition status (text : string) : Proc unit := Say (Status text) (Ret tt).
Definition warning (text : string) : Proc unit := Say (Warning text) (Ret tt).
Definition error (text : string) : Proc unit := Say (Error text) (Ret tt).
Definition success (text : string) : Proc unit := Say (Success text) (Ret tt).

(** ** Python helpers *)

(** The truth value of an optional string: [None] and [''] are false. *)
Definition truthy (o : option string) : bool :=
  match o with
  | None | Some "" => false
  | Some _ => true
  end.

(** The string inside an optional string that was found true. *)
Definition value_of (o : option string) : string := default "" o.

Definition startswith (s prefix : string) : bool := String.prefix prefix s.

Definition endswith (s suffix : string) : bool :=
  String.prefix (String.rev suffix) (String.rev s).

(** [os.path.join] of two components. *)
Definition os_path_join (a b : string) : string :=
  if startswith b "/" then b
  else if bool_decide (a = "") || endswith a "/" then a +:+ b
  else a +:+ "/" +:+ b.

(** The parts of [s] before and after its last ["/"], if it has one. *)
Fixpoint rsplit_slash (s : string) : option (string * string) :=
  match s with
  | EmptyString => None
  | String c s' =>
      match rsplit_slash s' with
      | Some (head, tail) => Some (String c head, tail)
      | None => if bool_decide (c = "/"%char) then Some ("", s') else None
      end
  end.

Fixpoint rstrip_slashes (rev_s : string) : string :=
  match rev_s with
  | String "/"%char s' => rstrip_slashes s'
  | _ => rev_s
  end.

(** [os.path.dirname]: what precedes the last slash, without trailing
    slashes unless it consists of slashes only. *)
Definition os_path_dirname (path : string) : string :=
  match rsplit_slash path with
  | None => ""
  | Some (head, _) =>
      let stripped := String.rev (rstrip_slashes (String.rev head)) in
      if bool_decide (stripped = "") then head +:+ "/" else stripped
  end.

Definition os_path_basename (path : string) : string :=
  match rsplit_slash path with
  | None => path
  | Some (_, tail) => tail
  end.

(** The greatest element of a non-empty list in the order of [<] on
    strings, scanning as the loop of [find_clang_format] does. *)
Definition latest_version (first : string) (versions : list string) : string :=
  fold_left (λ llvm_version version,
               if String.ltb llvm_version version then version
               else llvm_version)
            versions first.

(** ** The command line *)
Record Args : Type := {
  clean : bool;
  file : option string;
  in_place : bool;
  llvm_bin : option string;
  thla_home : option string;
  test : bool;
  verbose : bool
}.

(** ** [find_clang_format], lines 160 to 229

    [command_path] starts as [None].  In the [LLVM_HOME] branch the command
    is assigned to another variable, [clang_format_cmd], and only when
    [verbose] is set; [command_path] stays [None] there. *)
Definition find_clang_format (llvm_bin : option string) (verbose : bool) :
  Proc (option string) :=
  let command_path : option string := None in
  command_path ←
    (if truthy llvm_bin then
       Ret (Some (value_of llvm_bin +:+ "/clang-format"))
     else
       llvm_home ← ask (Getenv "LLVM_HOME");
       if truthy llvm_home then
         is_dir ← ask (Isdir (value_of llvm_home));
         if is_dir then
           if verbose then
             status ("LLVM_HOME: " +:+ value_of llvm_home) ;;
             let clang_format_cmd := value_of llvm_home +:+ "/clang-format" in
             Ret command_path
           else Ret command_path
         else failure ("LLVM_HOME not found: " +:+ value_of llvm_home)
       else
         usr_bin ← ask (Isfile "/usr/bin/clang-format");
         if usr_bin then Ret (Some "/usr/bin/clang-format")
         else
           usr_local_bin ← ask (Isfile "/usr/local/bin/clang-format");
           if usr_local_bin then Ret (Some "/usr/local/bin/clang-format")
           else
             cellar ← ask (Isdir "/usr/local/Cellar/llvm");
             if cellar then
               llvm_versions ← ask (Listdir "/usr/local/Cellar/llvm");
               match llvm_versions with
               | [] => Stop (Uncaught IndexError)
               | first :: _ =>
                   let llvm_version := latest_version first llvm_versions in
                   let bin_path :=
                     os_path_join "/usr/local/Cellar/llvm" llvm_version in
                   let bin_path := os_path_join bin_path "bin" in
                   Ret (Some (os_path_join bin_path "clang-format"))
               end
             else Ret command_path);
  match command_path with
  | None => failure "Could not find the clang-format command!"
  | Some path =>
      is_file ← ask (Isfile path);
      if negb is_file then
        failure ("Could not find the clang-format command!: " +:+ path)
      else
        (if verbose then status ("Using CLANG format command: " +:+ path)
         else pass) ;;
        Ret (Some path)
  end.

(** ** [link_clang_format], lines 241 to 262 *)
Definition link_clang_format (thla_scripts : string)
  (test_only verbose : bool) : Proc unit :=
  let thla_clang_format := os_path_join thla_scripts "clang-format" in
  is_file ← ask (Isfile ".clang-format");
  (if is_file then
     if verbose then
       status "Found existing format specification file: .clang-format"
     else pass
   else pass) ;;
  is_link ← ask (Islink ".clang-format");
  if is_link then
    if verbose then
      status "Found existing format specification link: .clang-format"
    else pass
  else
    if test_only then
      status ("Would link format specification: " +:+ thla_clang_format)
    else
      act (Symlink thla_clang_format ".clang-format") ;;
      if verbose then
        status ("Linking to format specification: " +:+ thla_clang_format)
      else pass.

(** The part [format_file] and [format_directory] share word for word:
    creating the [formatted] directory unless formatting in place. *)
Definition make_formatted_directory (in_place test_only verbose : bool) :
  Proc unit :=
  if negb in_place then
    is_dir ← ask (Isdir "formatted");
    if negb is_dir then
      if test_only then
        if verbose then status "Would create 'formatted' directory:"
        else pass
      else
        (if verbose then status "Creating 'formatted' directory:"
         else pass) ;;
        act (Mkdir "formatted")
    else pass
  else pass.

(** Likewise: running the formatter on one file of the current directory. *)
Definition run_clang_format (file clang_format_cmd : string)
  (in_place test_only verbose : bool) : Proc unit :=
  if in_place then
    let command := clang_format_cmd +:+ " -style=file -i " +:+ file in
    if test_only then
      status "Would format file in place with command:" ;;
      status ("   " +:+ command)
    else
      (if verbose then status ("Formatting in place: " +:+ file) else pass) ;;
      os_system command
  else
    let command :=
      clang_format_cmd +:+ " -style=file " +:+ file +:+ " > formatted/"
        +:+ file in
    if test_only then
      status "Would format file with command:" ;;
      status ("   " +:+ command)
    else
      (if verbose then status ("Formatting in 'formatted': " +:+ file)
       else pass) ;;
      os_system command.

(** ** [format_file], lines 281 to 376.  The result is [Some true] where the
    function returns its error flag and [None] where it returns nothing. *)
Definition format_file (file_path clang_format_cmd thla_scripts : string)
  (in_place test_only verbose : bool) : Proc (option bool) :=
  let rest : Proc (option bool) :=
    let dir_path := os_path_dirname file_path in
    let file := os_path_basename file_path in
    original_dir ← ask Abspath_curdir;
    act (Chdir dir_path) ;;
    link_clang_format thla_scripts test_only verbose ;;
    make_formatted_directory in_place test_only verbose ;;
    run_clang_format file clang_format_cmd in_place test_only verbose ;;
    act (Chdir original_dir) ;;
    Ret None in
  is_file ← ask (Isfile file_path);
  if is_file then
    is_link ← ask (Islink file_path);
    if is_link then
      error ("File is a link: " +:+ file_path) ;; Ret (Some true)
    else rest
  else
    error ("File does not exist: " +:+ file_path) ;; Ret (Some true).

(** ** [format_directory], lines 396 to 492 *)
Definition format_directory (dir_path clang_format_cmd thla_scripts : string)
  (in_place test_only verbose : bool) : Proc bool :=
  let error := false in
  (if verbose then status ("Formatting " +:+ dir_path +:+ " directory:")
   else pass) ;;
  original_dir ← ask Abspath_curdir;
  act (Chdir dir_path) ;;
  link_clang_format thla_scripts test_only verbose ;;
  make_formatted_directory in_place test_only verbose ;;
  dir_list ← ask (Listdir ".");
  for_each dir_list (λ file,
    is_file ← ask (Isfile file);
    is_link ← if is_file then ask (Islink file) else Ret false;
    if is_file && negb is_link then
      if endswith file ".hh" || endswith file ".h"
         || endswith file ".cpp" || endswith file ".c"
      then run_clang_format file clang_format_cmd in_place test_only verbose
      else pass
    else pass) ;;
  act (Chdir original_dir) ;;
  Ret error.

(** ** [cleanup_directory], lines 507 to 556 *)
Definition cleanup_directory (dir_path : string) (test_only verbose : bool) :
  Proc unit :=
  (if verbose then status ("Cleaning up directory: " +:+ dir_path)
   else pass) ;;
  original_dir ← ask Abspath_curdir;
  act (Chdir dir_path) ;;
  is_link ← ask (Islink ".clang-format");
  (if is_link then
     if test_only then status "Would remove '.clang-format' link."
     else
       (if verbose then status "Removing '.clang-format' link." else pass) ;;
       act (Remove ".clang-format")
   else pass) ;;
  is_dir ← ask (Isdir "formatted");
  (if is_dir then
     if test_only then status "Would remove 'formatted' directory."
     else
       (if verbose then status "Removing 'formatted' directory."
        else pass) ;;
       tree ← ask (Walk "formatted");
       for_each tree (λ '(root, dirs, files),
         for_each files (λ file,
           let file_path := os_path_join root file in
           act (Remove file_path))) ;;
       act (Removedirs "formatted")
   else pass) ;;
  act (Chdir original_dir).

(** ** [main], lines 23 to 149

    [parser.parse_args()] has produced [args].  The branch taken when
    [args.thla_home] is true reads the name [ars], which is bound nowhere.
    [raw_input] is the Python 2 builtin the script calls. *)
Definition main (args : Args) : Proc unit :=
  trickhla_home ←
    (if truthy (thla_home args) then Stop (Uncaught (NameError "ars"))
     else
       trickhla_home ← ask (Getenv "TRICKHLA_HOME");
       match trickhla_home with
       | Some home => Ret home
       | None =>
           trickhla_home ← ask (Getenv "TRICK_HLA_HOME");
           match trickhla_home with
           | Some home => Ret home
           | None => failure "TRICKHLA_HOME not set!"
           end
       end);
  is_dir ← ask (Isdir trickhla_home);
  (if is_dir then
     (if verbose args then
        status ("Moving to TRICKHLA_HOME: " +:+ trickhla_home)
      else pass) ;;
     act (Chdir trickhla_home)
   else failure "TrickHLA Home directory not found!") ;;
  is_dir ← ask (Isdir "include");
  (if negb is_dir then failure "Could not find the 'include' directory!"
   else pass) ;;
  is_dir ← ask (Isdir "source");
  (if negb is_dir then failure "Could not find the 'source' directory!"
   else pass) ;;
  is_dir ← ask (Isdir "models");
  (if negb is_dir then failure "Could not find the 'models' directory!"
   else pass) ;;
  is_dir ← ask (Isdir "scripts");
  (if negb is_dir then failure "Could not find the 'scripts' directory!"
   else pass) ;;
  let trickhla_scripts := os_path_join trickhla_home "scripts" in
  let trickhla_src_paths :=
    [ os_path_join trickhla_home "include";
      os_path_join trickhla_home "source";
      os_path_join trickhla_home "models/simconfig";
      os_path_join trickhla_home "models/sine" ] in
  clang_format_cmd ← find_clang_format (llvm_bin args) (verbose args);
  clang_format_cmd ←
    match clang_format_cmd with
    | None => failure "No clang-format command found!"
    | Some cmd => Ret cmd
    end;
  (if in_place args && clean args then
     failure "The 'in_place' and 'clean' options are incompatible!"
   else pass) ;;
  (if truthy (file args) && clean args then
     failure "The 'file' and 'clean' options are incompatible!"
   else pass) ;;
  (if in_place args && negb (test args) then
     warning "Formatting TrickHLA source code in place!" ;;
     check_in_place ← ask (Raw_input "Are you sure you want to do this? [y]: ");
     if bool_decide (check_in_place = "y") then
       status "Proceeding with formatting . . ."
     else
       status "You chose not to proceed. Exiting!" ;;
       Stop SysExit
   else pass) ;;
  (if truthy (file args) then
     format_file (value_of (file args)) clang_format_cmd trickhla_scripts
       (in_place args) (test args) (verbose args) ;;
     pass
   else
     for_each trickhla_src_paths (λ src_path,
       act (Chdir src_path) ;;
       (if verbose args then
          if clean args then status ("Cleaning directory: " +:+ src_path)
          else status ("Formatting directory: " +:+ src_path)
        else pass) ;;
       dir_list ← ask (Listdir ".");
       for_each dir_list (λ dir_entry,
         is_file ← ask (Isfile dir_entry);
         if is_file then pass
         else if clean args then
           cleanup_directory dir_entry (test args) (verbose args)
         else
           format_directory dir_entry clang_format_cmd trickhla_scripts
             (in_place args) (test args) (verbose args) ;;
           pass))) ;;
  (if clean args then
     success "Finished cleaning up TrickHLA formatting artifacts."
   else success "Finished formatting TrickHLA source code.").

(** ** Running a program in a world

    A world of type [W] answers queries without changing, and reacts to an
    action by letting it through or refusing it, and by changing.  A run
    yields the log of what was printed and attempted, the final world, and
    how the program ended. *)
Inductive log_entry : Type :=
| Printed (m : message)
| Performed (a : action) (ok : bool).

Record OS (W : Type) : Type := {
  answer : ∀ X, query X → W → X;
  react : action → W → bool * W
}.

Arguments answer {W} _ {X} _ _.
Arguments react {W} _ _ _.

Fixpoint run {W A} (os : OS W) (p : Proc A) (w : W) :
  list log_entry * W * (stop + A) :=
  match p with
  | Ret a => ([], w, inr a)
  | Stop s => ([], w, inl s)
  | Ask q k => run os (k (answer os q w)) w
  | Say m k =>
      let '(log, w', r) := run os k w in (Printed m :: log, w', r)
  | Act a k =>
      let (ok, w1) := react os a w in
      let '(log, w', r) := run os (k ok) w1 in
      (Performed a ok :: log, w', r)
  end.

Definition log_of {W A} (r : list log_entry * W * (stop + A)) :
  list log_entry := r.1.1.
Definition world_of {W A} (r : list log_entry * W * (stop + A)) : W := r.1.2.
Definition outcome {W A} (r : list log_entry * W * (stop + A)) : stop + A :=
  r.2.

(** Log entries that are attempts to change files: everything the script
    does to the file system except moving between directories. *)
Definition changes_files (e : log_entry) : bool :=
  match e with
  | Printed _ => false
  | Performed (Chdir _) _ => false
  | Performed _ _ => true
  end.

Definition announces_success (e : log_entry) : bool :=
  match e with
  | Printed (Success _) => true
  | _ => false
  end.


(** The world as it is when [main] looks for the directories [include],
    [source], [models] and [scripts]: the home directory is taken from the
    environment and entered. *)
Definition home_of {W} (os : OS W) (w : W) : option string :=
  match answer os (Getenv "TRICKHLA_HOME") w with
  | Some home => Some home
  | None => answer os (Getenv "TRICK_HLA_HOME") w
  end.

Definition at_home {W} (os : OS W) (w : W) : W :=
  match home_of os w with
  | Some home => (react os (Chdir home) w).2
  | None => w
  end.


(** ** A small file system, for running the script on examples

    Absolute paths of the directories, of the files and of the symbolic
    links; a link that leads to a file is listed among the files too. *)
Record FS : Type := {
  cwd : string;
  directories : list string;
  regular_files : list string;
  symlinks : list string;
  environ : list (string * string);
  stdin : string
}.

Fixpoint lookup_env (name : string) (env : list (string * string)) :
  option string :=
  match env with
  | [] => None
  | (k, v) :: env' => if bool_decide (k = name) then Some v
                      else lookup_env name env'
  end.

Definition resolve (fs : FS) (path : string) : string :=
  if bool_decide (path = ".") then cwd fs else os_path_join (cwd fs) path.

Fixpoint strip_prefix (prefix s : string) : option string :=
  match prefix, s with
  | EmptyString, _ => Some s
  | String a prefix', String b s' =>
      if bool_decide (a = b) then strip_prefix prefix' s' else None
  | String _ _, EmptyString => None
  end.

(** The name of [path] inside the directory [dir], if it lies directly in
    it. *)
Definition entry_of (dir path : string) : option string :=
  match strip_prefix (if endswith dir "/" then dir else dir +:+ "/") path with
  | Some name =>
      if bool_decide (name = "") then None
      else match rsplit_slash name with
           | None => Some name
           | Some _ => None
           end
  | None => None
  end.

Definition entries (dir : string) (paths : list string) : list string :=
  omap (entry_of dir) paths.

Definition fs_listdir (fs : FS) (dir : string) : list string :=
  remove_dups (entries dir
                 (directories fs ++ regular_files fs ++ symlinks fs)).

Definition fs_walk (fs : FS) (top : string) :
  list (string * list string * list string) :=
  let base := resolve fs top in
  omap (λ dir,
          match strip_prefix base dir with
          | Some rest =>
              if bool_decide (rest = "") || startswith rest "/" then
                Some (top +:+ rest,
                      entries dir (directories fs),
                      remove_dups
                        (entries dir (regular_files fs ++ symlinks fs)))
              else None
          | None => None
          end)
       (directories fs).

Definition fs_answer (X : Type) (q : query X) (fs : FS) : X :=
  match q in query X return X with
  | Getenv name => lookup_env name (environ fs)
  | Isdir path => bool_decide (resolve fs path ∈ directories fs)
  | Isfile path => bool_decide (resolve fs path ∈ regular_files fs)
  | Islink path => bool_decide (resolve fs path ∈ symlinks fs)
  | Listdir path => fs_listdir fs (resolve fs path)
  | Walk top => fs_walk fs top
  | Abspath_curdir => cwd fs
  | Raw_input _ => stdin fs
  end.

Definition exists_in (fs : FS) (path : string) : bool :=
  bool_decide (path ∈ directories fs ++ regular_files fs ++ symlinks fs).

Definition without (path : string) (paths : list string) : list string :=
  filter (λ p, p ≠ path) paths.

(** What the formatter writes is not recorded: [System] goes through and
    leaves the file system as it is. *)
Definition fs_react (a : action) (fs : FS) : bool * FS :=
  match a with
  | Chdir path =>
      let target := resolve fs path in
      if bool_decide (path ≠ "") && bool_decide (target ∈ directories fs)
      then (true, {| cwd := target; directories := directories fs;
                     regular_files := regular_files fs;
                     symlinks := symlinks fs; environ := environ fs;
                     stdin := stdin fs |})
      else (false, fs)
  | Mkdir path =>
      let target := resolve fs path in
      if exists_in fs target then (false, fs)
      else (true, {| cwd := cwd fs;
                     directories := directories fs ++ [target];
                     regular_files := regular_files fs;
                     symlinks := symlinks fs; environ := environ fs;
                     stdin := stdin fs |})
  | Symlink src dst =>
      let target := resolve fs dst in
      if exists_in fs target then (false, fs)
      else (true, {| cwd := cwd fs; directories := directories fs;
                     regular_files :=
                       if bool_decide (resolve fs src ∈ regular_files fs)
                       then regular_files fs ++ [target]
                       else regular_files fs;
                     symlinks := symlinks fs ++ [target];
                     environ := environ fs; stdin := stdin fs |})
  | Remove path =>
      let target := resolve fs path in
      if bool_decide (target ∈ regular_files fs ++ symlinks fs)
      then (true, {| cwd := cwd fs; directories := directories fs;
                     regular_files := without target (regular_files fs);
                     symlinks := without target (symlinks fs);
                     environ := environ fs; stdin := stdin fs |})
      else (false, fs)
  | Removedirs path =>
      let target := resolve fs path in
      if bool_decide (target ∈ directories fs)
         && bool_decide (fs_listdir fs target = [])
      then (true, {| cwd := cwd fs;
                     directories := without target (directories fs);
                     regular_files := regular_files fs;
                     symlinks := symlinks fs; environ := environ fs;
                     stdin := stdin fs |})
      else (false, fs)
  | System _ => (true, fs)
  end.

Definition fs_os : OS FS := {| answer := fs_answer; react := fs_react |}.

(** ** Vocabulary for the statements *)







Definition with_thla_home (v : option string) (args : Args) : Args :=
  {| clean := clean args; file := file args; in_place := in_place args;
     llvm_bin := llvm_bin args; thla_home := v; test := test args;
     verbose := verbose args |}.

(** ** Examples to run the script on *)

Definition thla_tree : FS :=
  {| cwd := "/home/user";
     directories :=
       ["/home/user"; "/thla"; "/thla/include"; "/thla/include/TrickHLA";
        "/thla/include/TrickHLA/formatted";
        "/thla/source"; "/thla/source/TrickHLA"; "/thla/models";
        "/thla/models/simconfig"; "/thla/models/simconfig/include";
        "/thla/models/sine"; "/thla/models/sine/src";
        "/thla/scripts"; "/usr/bin"; "/opt/llvm/bin"];
     regular_files :=
       ["/thla/include/TrickHLA/Object.hh";
        "/thla/include/TrickHLA/formatted/Object.hh";
        "/thla/source/TrickHLA/Object.cpp";
        "/thla/source/TrickHLA/README";
        "/thla/models/sine/src/SineData.cpp";
        "/thla/scripts/clang-format";
        "/usr/bin/clang-format";
        "/opt/llvm/bin/clang-format"];
     symlinks := ["/thla/include/TrickHLA/.clang-format"];
     environ := [("TRICKHLA_HOME", "/thla")];
     stdin := "y" |}.

(** The same machine with [LLVM_HOME] pointing at a directory that holds
    [clang-format]. *)
Definition llvm_home_tree : FS :=
  {| cwd := cwd thla_tree;
     directories := directories thla_tree;
     regular_files := regular_files thla_tree;
     symlinks := symlinks thla_tree;
     environ := [("TRICKHLA_HOME", "/thla"); ("LLVM_HOME", "/opt/llvm/bin")];
     stdin := stdin thla_tree |}.


(** [format_code.py --thla_home '' --test] *)
Definition empty_thla_home_args : Args :=
  {| clean := false; file := None; in_place := false; llvm_bin := None;
     thla_home := Some ""; test := true; verbose := false |}.

(** [format_code.py --thla_home /thla] *)
Definition thla_home_args : Args :=
  {| clean := false; file := None; in_place := false; llvm_bin := None;
     thla_home := Some "/thla"; test := false; verbose := false |}.



End FormatCode.

(** * Part III: the command line of the input files

    [print_usage_message], [parse_command_line] and the lines that call
    them in [sims/SpaceFOM/SIM_wheelbot/RUN_wb1/input.py].  The input file
    [sims/SpaceFOM/SIM_Roles_Test_threads/RUN_Master/input.py] has the same
    two functions, word for word, and another default run duration. *)

Module InputFile.

(** What the input file does that can be seen from outside: a line it
    prints, and the call [trick.exec_terminate_with_return( code, file, line,
    message )], of which the return code and the message are kept. *)
Inductive event : Type :=
| Line (line : string)
| Exec_terminate_with_return (code : Z) (message : string).

(** [float( text )] raised. *)
Inductive exception : Type :=
| ValueError (text : string).

Section Parse.
(** The floating-point numbers of Python and its [float( text )], which
    yields a number or raises [ValueError]. *)
Context {F : Type} (float : string → option F).

(** The three globals [parse_command_line] assigns.  [run_duration] is a
    number or [None]. *)
Record globals : Type := {
  print_usage : bool;
  run_duration : option F;
  verbose : bool
}.

Definition set_print_usage (b : bool) (g : globals) : globals :=
  {| print_usage := b; run_duration := run_duration g; verbose := verbose g |}.

Definition set_run_duration (d : option F) (g : globals) : globals :=
  {| print_usage := print_usage g; run_duration := d; verbose := verbose g |}.

Definition set_verbose (b : bool) (g : globals) : globals :=
  {| print_usage := print_usage g; run_duration := run_duration g;
     verbose := b |}.

(** The state of a run: the globals, what was printed so far, and the
    exception that ended it, if any. *)
Record state : Type := {
  vars : globals;
  events : list event;
  raised : option exception
}.

Definition print (line : string) (s : state) : state :=
  {| vars := vars s; events := events s ++ [Line line];
     raised := raised s |}.

Definition assign (f : globals → globals) (s : state) : state :=
  {| vars := f (vars s); events := events s; raised := raised s |}.

Definition raise_exception (e : exception) (s : state) : state :=
  {| vars := vars s; events := events s; raised := Some e |}.

Definition exec_terminate_with_return (code : Z) (message : string)
  (s : state) : state :=
  {| vars := vars s;
     events := events s ++ [Exec_terminate_with_return code message];
     raised := raised s |}.

(** [print_usage_message], lines 38 to 52. *)
Definition print_usage_message (s : state) : state :=
  let s := print " " s in
  let s :=
    print
      "TrickHLA SpaceFOM Master Simulation Command Line Configuration Options:"
      s in
  let s := print "  -h -help         : Print this help message." s in
  let s :=
    print
      "  -stop [time]     : Time to stop simulation, default is 10.0 seconds."
      s in
  let s := print "  -nostop          : Set no stop time on simulation." s in
  let s :=
    print
      "  -verbose [on|off]: on: Show verbose messages (Default), off: disable messages."
      s in
  let s := print " " s in
  exec_terminate_with_return (-1) "Print usage message." s.

(** The [while] loop of [parse_command_line], lines 68 to 102: [args] is
    what is left of [argv] from [index] on, so [index < argc] is [args] not
    being empty, and an option that takes an argument looks at the head of
    the rest. *)
Fixpoint parse_arguments (args : list string) (s : state) : state :=
  match args with
  | [] => s
  | arg :: rest =>
      if bool_decide (arg = "-stop") then
        match rest with
        | time :: rest' =>
            match float time with
            | Some d =>
                parse_arguments rest' (assign (set_run_duration (Some d)) s)
            | None => raise_exception (ValueError time) s
            end
        | [] =>
            assign (set_print_usage true)
              (print "ERROR: Missing -stop [time] argument." s)
        end
      else if bool_decide (arg = "-nostop") then
        parse_arguments rest (assign (set_run_duration None) s)
      else if bool_decide (arg = "-h") || bool_decide (arg = "-help") then
        parse_arguments rest (assign (set_print_usage true) s)
      else if bool_decide (arg = "-verbose") then
        match rest with
        | value :: rest' =>
            if bool_decide (value = "on") then
              parse_arguments rest' (assign (set_verbose true) s)
            else if bool_decide (value = "off") then
              parse_arguments rest' (assign (set_verbose false) s)
            else
              parse_arguments rest'
                (assign (set_print_usage true)
                   (print ("ERROR: Unknown -verbose argument: " +:+ value) s))
        | [] =>
            assign (set_print_usage true)
              (print "ERROR: Missing -verbose [on|off] argument." s)
        end
      else
        parse_arguments rest
          (assign (set_print_usage true)
             (print ("ERROR: Unknown command line argument " +:+ arg) s))
  end.

(** [parse_command_line], lines 55 to 103.  [argv] is the list
    [trick.command_line_args_get_argv()] returns and [argc] its length;
    [argv[0]] is the executable and [argv[1]] the input file. *)
Definition parse_command_line (argv : list string) (s : state) : state :=
  let index := 2 in
  parse_arguments (drop index argv) s.

(** The start of the input file, lines 105 to 117: the defaults, the command
    line, the usage message.  [default_run_duration] is the number the file
    writes, 70.0 for the wheelbot run and 10.0 for the Master run. *)
Definition startup (default_run_duration : F) (argv : list string) : state :=
  let s :=
    {| vars := {| print_usage := false;
                  run_duration := Some default_run_duration;
                  verbose := true |};
       events := [];
       raised := None |} in
  let s := parse_command_line argv s in
  match raised s with
  | Some _ => s
  | None => if print_usage (vars s) then print_usage_message s else s
  end.

(** ** Vocabulary for the statements *)

Definition is_error_line (e : event) : Prop :=
  ∃ text, e = Line ("ERROR: " +:+ text).

(** What the usage message adds to the events. *)
Definition usage_events : list event :=
  [ Line " ";
    Line
      "TrickHLA SpaceFOM Master Simulation Command Line Configuration Options:";
    Line "  -h -help         : Print this help message.";
    Line
      "  -stop [time]     : Time to stop simulation, default is 10.0 seconds.";
    Line "  -nostop          : Set no stop time on simulation.";
    Line
      "  -verbose [on|off]: on: Show verbose messages (Default), off: disable messages.";
    Line " ";
    Exec_terminate_with_return (-1) "Print usage message." ].

(** A well-formed command line, option by option. *)
Inductive setting : Type :=
| Stop_at (time : string)
| No_stop
| Help (long : bool)
| Verbose (on : bool).

Definition render (o : setting) : list string :=
  match o with
  | Stop_at time => ["-stop"; time]
  | No_stop => ["-nostop"]
  | Help long => [if long then "-help" else "-h"]
  | Verbose on => ["-verbose"; if on then "on" else "off"]
  end.

Definition readable (o : setting) : Prop :=
  match o with
  | Stop_at time => is_Some (float time)
  | _ => True
  end.

Definition effect (g : globals) (o : setting) : globals :=
  match o with
  | Stop_at time => set_run_duration (float time) g
  | No_stop => set_run_duration None g
  | Help _ => set_print_usage true g
  | Verbose on => set_verbose on g
  end.

End Parse.

Arguments globals : clear implicits.
Arguments state : clear implicits.

(** ** Examples to run the definitions on

    Numbers are integers here, and [float] reads two of them. *)
Definition example_float (text : string) : option Z :=
  if bool_decide (text = "30") then Some 30%Z
  else if bool_decide (text = "0") then Some 0%Z
  else None.

(** The globals as the wheelbot input file sets them before it parses. *)
Definition example_state : state Z :=
  {| vars := {| print_usage := false; run_duration := Some 70%Z;
                verbose := true |};
     events := [];
     raised := None |}.

(** [-verbose off -h] and [-stop 30 -nostop]. *)
Definition quiet_help_arguments : list string := ["-verbose"; "off"; "-h"].
Definition stop_nostop_arguments : list string := ["-stop"; "30"; "-nostop"].

(** [-stop 30 -verbose off -stop 0], option by option. *)
Definition example_settings : list setting :=
  [Stop_at "30"; Verbose false; Stop_at "0"].

End InputFile.

(** * Part IV: vocabulary for further properties *)

Module HLA_terms.
Import HLA.

(** The logical names [add_attributes] uses, in its order. *)
Definition entity_attribute_names : list string :=
  ["name"; "type"; "status"; "parent_reference_frame"; "state";
   "acceleration"; "rotational_acceleration"; "center_of_mass";
   "body_wrt_structural"].

(** The nine attributes [add_attributes] builds, lines 81 to 185, for an
    object with the create flag [create] and the simulation object
    [sim_object]. *)
Definition entity_attributes `{TrickConstants} (create : bool)
  (sim_object : string) : list TrickHLAAttributeConfig :=
  let owner_sends name variable encoding :=
    Build_TrickHLAAttributeConfig name (sim_object +:+ variable)
      create (negb create) create
      (CONFIG_INITIALIZE + CONFIG_CYCLIC) encoding in
  [ owner_sends "name" ".pe_packing_data.name" ENCODING_UNICODE_STRING;
    owner_sends "type" ".pe_packing_data.type" ENCODING_UNICODE_STRING;
    owner_sends "status" ".pe_packing_data.status" ENCODING_UNICODE_STRING;
    owner_sends "parent_reference_frame" ".pe_packing_data.parent_frame"
      ENCODING_UNICODE_STRING;
    owner_sends "state" ".stc_encoder.buffer" ENCODING_NONE;
    owner_sends "acceleration" ".pe_packing_data.accel"
      ENCODING_LITTLE_ENDIAN;
    owner_sends "rotational_acceleration" ".pe_packing_data.ang_accel"
      ENCODING_LITTLE_ENDIAN;
    owner_sends "center_of_mass" ".pe_packing_data.cm"
      ENCODING_LITTLE_ENDIAN;
    owner_sends "body_wrt_structural" ".quat_encoder.buffer" ENCODING_NONE ].

(** [self.add_attribute] for each attribute of a list in turn. *)
Fixpoint add_each (l : list TrickHLAAttributeConfig)
  (self : SpaceFOMPhysicalEntityObject) :
  HLAConfigError + SpaceFOMPhysicalEntityObject :=
  match l with
  | [] => inr self
  | a :: l' =>
      match self_add_attribute a self with
      | inl e => inl e
      | inr self' => add_each l' self'
      end
  end.

(** An attribute of the entity whose simulation object is [sim_object]: the
    owner is the creator, the value is sent at initialisation and
    cyclically, and the binding is a variable of that simulation object. *)
Definition entity_attribute `{TrickConstants} (create : bool)
  (sim_object : string) (a : TrickHLAAttributeConfig) : Prop :=
  locally_owned a = create ∧
  update_policy a = (CONFIG_INITIALIZE + CONFIG_CYCLIC)%Z ∧
  ∃ variable, local_binding a = sim_object +:+ "." +:+ variable.

(** The hooks of a frame descriptor, as the keyword arguments it was built
    with. *)
Definition options_of (f : SpaceFOMRefFrameObject) : frame_options :=
  {| frame_conditional := hla_conditional (frame_object f);
     frame_lag_comp := hla_lag_comp (frame_object f);
     frame_lag_comp_type := hla_lag_comp_type (frame_object f);
     frame_ownership := hla_ownership (frame_object f);
     frame_deleted := hla_deleted (frame_object f);
     frame_thread_IDs := hla_thread_IDs (frame_object f) |}.

(** ** Examples to run the definitions on *)

Definition example_tree : tree_instance :=
  {| ssbary_frame_ptr := 1; sun_frame_ptr := 2; embary_frame_ptr := 3;
     earth_frame_ptr := 4; moon_frame_ptr := 5; mars_frame_ptr := 6;
     earth_pfix_frame_ptr := 7; moon_pfix_frame_ptr := 8;
     mars_pfix_frame_ptr := 9 |}.

Definition example_federate : SpaceFOMFederateConfig :=
  {| root_frame := None; fed_objects := [] |}.

(** The Earth inertial frame of the JEOD tree built from [example_tree]. *)
Definition example_earth_frame : SpaceFOMRefFrameObject :=
  built_frame true "EarthMJ2000Eq" 4 "earth_centered_inertial.frame_packing"
    (Some (PySim "earth_moon_barycenter.frame_packing",
           "EarthMoonBarycentricInertial"))
    (hooks_of "earth_centered_inertial" (PyInt 0)).

End HLA_terms.

Module FormatCode_terms.
Import FormatCode.

(** ** Properties of all runs of a program *)

(** Every entry of the log of every run of [p] satisfies [P]. *)
Definition always {W A} (os : OS W) (P : log_entry → Prop) (p : Proc A) :
  Prop :=
  ∀ w, Forall P (log_of (run os p w)).

(** Where the run of [p] from [w] returns, its log ends with [e]; before
    that, and where it stops, every entry satisfies [P]. *)
Definition closes_at {W A} (os : OS W) (P : log_entry → Prop)
  (e : log_entry) (p : Proc A) (w : W) : Prop :=
  match outcome (run os p w) with
  | inl _ => Forall P (log_of (run os p w))
  | inr _ => ∃ log, log_of (run os p w) = log ++ [e] ∧ Forall P log
  end.

(** The same for every run of [p]. *)
Definition closes {W A} (os : OS W) (P : log_entry → Prop) (e : log_entry)
  (p : Proc A) : Prop :=
  ∀ w, closes_at os P e p w.

(** Whatever [p] returns satisfies [Q]. *)
Definition returns {W A} (os : OS W) (Q : A → Prop) (p : Proc A) : Prop :=
  ∀ w a, outcome (run os p w) = inr a → Q a.

(** ** What a log entry may be *)

Definition harmless (e : log_entry) : Prop := changes_files e = false.

Definition no_success (e : log_entry) : Prop := announces_success e = false.

Definition anything (e : log_entry) : Prop := True.

(** The file names [format_directory] takes for source files, lines 442 to
    445. *)
Definition recognised (file : string) : bool :=
  endswith file ".hh" || endswith file ".h"
  || endswith file ".cpp" || endswith file ".c".

(** The command [format_file] and [format_directory] hand to the shell. *)
Definition format_command (clang_format_cmd : string) (in_place : bool)
  (file : string) : string :=
  if in_place then clang_format_cmd +:+ " -style=file -i " +:+ file
  else clang_format_cmd +:+ " -style=file " +:+ file +:+ " > formatted/"
         +:+ file.

(** The link [link_clang_format] makes. *)
Definition symlink_to (thla_scripts : string) : action :=
  Symlink (os_path_join thla_scripts "clang-format") ".clang-format".

(** What [format_directory] may do: move between directories, link the
    format specification, make the directory [formatted] when not
    formatting in place, and run the formatter on recognised files. *)
Definition formats_only (clang_format_cmd thla_scripts : string)
  (in_place : bool) (e : log_entry) : Prop :=
  match e with
  | Printed m => ∀ text, m ≠ Success text
  | Performed (Chdir _) _ => True
  | Performed (Symlink src dst) _ =>
      Symlink src dst = symlink_to thla_scripts
  | Performed (Mkdir path) _ => in_place = false ∧ path = "formatted"
  | Performed (System command) _ =>
      ∃ file, recognised file = true ∧
              command = format_command clang_format_cmd in_place file
  | Performed (Remove _) _ | Performed (Removedirs _) _ => False
  end.

(** What [cleanup_directory] may do: move between directories, remove
    files, and remove the directory [formatted]. *)
Definition cleans_only (e : log_entry) : Prop :=
  match e with
  | Printed m => ∀ text, m ≠ Success text
  | Performed (Chdir _) _ => True
  | Performed (Remove _) _ => True
  | Performed (Removedirs path) _ => path = "formatted"
  | Performed _ _ => False
  end.

(** The last line of [main], lines 143 to 147. *)
Definition final_message (args : Args) : string :=
  if clean args then "Finished cleaning up TrickHLA formatting artifacts."
  else "Finished formatting TrickHLA source code.".

(** The question [main] asks before it formats in place, line 104. *)
Definition confirmation_prompt : string :=
  "Are you sure you want to do this? [y]: ".

(** A run that stopped and up to then attempted no change of any file. *)
Definition stops_harmless {W A} (r : list log_entry * W * (stop + A)) :
  Prop :=
  (∃ s, outcome r = inl s) ∧ Forall harmless (log_of r).

(** ** Examples to run the script on *)

(** [format_code.py --test --verbose] *)
Definition dry_run_args : Args :=
  {| clean := false; file := None; in_place := false; llvm_bin := None;
     thla_home := None; test := true; verbose := true |}.

(** [format_code.py --in_place] *)
Definition in_place_args : Args :=
  {| clean := false; file := None; in_place := true; llvm_bin := None;
     thla_home := None; test := false; verbose := false |}.

(** The machine of [thla_tree], with the user inside a source directory and
    answering [n]. *)
Definition source_directory_tree : FS :=
  {| cwd := "/thla/source/TrickHLA";
     directories := directories thla_tree;
     regular_files := regular_files thla_tree;
     symlinks := symlinks thla_tree;
     environ := environ thla_tree;
     stdin := "n" |}.

(** A machine with an empty Homebrew directory for LLVM and no
    [clang-format] anywhere else. *)
Definition empty_cellar_tree : FS :=
  {| cwd := "/home/user";
     directories := ["/home/user"; "/usr/local/Cellar/llvm"];
     regular_files := [];
     symlinks := [];
     environ := [];
     stdin := "" |}.

End FormatCode_terms.

(** * Part V: properties of the mapping layer *)

Module HLA_facts.
Import HLA.

Section Facts.
Context `{TrickConstants}.

(** ** Equations of the configuration pass *)

Lemma bind_run {A B} (m : M A) (k : A → M B) s :
  mbind k m s =
  (match m s with (s', inl e) => (s', inl e) | (s', inr a) => k a s' end).
Proof. reflexivity. Qed.

Lemma lift_run {A} (r : HLAConfigError + A) s : lift r s = (s, r).
Proof. reflexivity. Qed.

Ltac unfold_pass :=
  unfold mbind, M_bind, bind, get_registry, lift, raise, mret, M_ret, ret,
    modify_heap, register_frame, TrickHLAObjectConfig_init.

(** ** Attributes *)

Lemma add_attribute_inr a o o' :
  add_attribute a o = inr o' →
  (logical_name a ∉ logical_name <$> attributes o) ∧
  o' = with_attributes (attributes o ++ [a]) o.
Proof.
  unfold add_attribute. case_bool_decide; [discriminate|].
  intros [= <-]. done.
Qed.

Lemma self_add_attribute_inr a self self' :
  self_add_attribute a self = inr self' →
  attributes (entity_object self') = attributes (entity_object self) ++ [a] ∧
  hla_create (entity_object self') = hla_create (entity_object self) ∧
  trick_entity_sim_obj_name self' = trick_entity_sim_obj_name self.
Proof.
  unfold self_add_attribute.
  destruct (add_attribute a (entity_object self)) as [e|o] eqn:E;
    simpl; [discriminate|].
  intros [= <-]. apply add_attribute_inr in E as [_ ->]. done.
Qed.

(** On an object that has no attributes yet, as the constructor leaves it,
    [add_attributes] returns. *)
Lemma add_attributes_fresh self :
  attributes (entity_object self) = [] → succeeds (add_attributes self).
Proof.
  destruct self as [[] sname]; simpl; intros ->.
  eexists. vm_compute. reflexivity.
Qed.

Ltac step_add_attribute :=
  match goal with
  | |- context [self_add_attribute ?a ?s] =>
      let E := fresh "E" in
      destruct (self_add_attribute a s) as [?|?self] eqn:E;
      simpl; [discriminate|];
      apply self_add_attribute_inr in E as (? & ? & ?)
  end.

(** What [add_attributes] appends when it returns; the create flag stays. *)
Lemma add_attributes_built self self' :
  add_attributes self = inr self' →
  hla_create (entity_object self') = hla_create (entity_object self) ∧
  ∃ built,
    attributes (entity_object self') =
      attributes (entity_object self) ++ built ∧
    length built = 9 ∧
    logical_name <$> built =
      ["name"; "type"; "status"; "parent_reference_frame"; "state";
       "acceleration"; "rotational_acceleration"; "center_of_mass";
       "body_wrt_structural"] ∧
    Forall (creator_publishes (hla_create (entity_object self))) built.
Proof.
  unfold add_attributes. simpl.
  do 9 step_add_attribute.
  intros [= <-]. split; [congruence|].
  eexists [_; _; _; _; _; _; _; _; _]. split; [|split; [|split]].
  - repeat match goal with
      | E : attributes _ = _ |- _ => rewrite E; clear E end.
    rewrite <- !app_assoc. reflexivity.
  - reflexivity.
  - reflexivity.
  - repeat constructor.
Qed.

(** C3.  Whenever [add_attributes] returns, it has appended nine attribute
    descriptors, named as in the source, and each of them has its publish
    flag equal to the create flag of the object and its subscribe flag equal
    to the negation of it. *)
Theorem add_attributes_creator_publishes self self' :
  add_attributes self = inr self' →
  ∃ built,
    attributes (entity_object self') =
      attributes (entity_object self) ++ built ∧
    length built = 9 ∧
    logical_name <$> built =
      ["name"; "type"; "status"; "parent_reference_frame"; "state";
       "acceleration"; "rotational_acceleration"; "center_of_mass";
       "body_wrt_structural"] ∧
    Forall (creator_publishes (hla_create (entity_object self))) built.
Proof. intros Hadd. by destruct (add_attributes_built _ _ Hadd). Qed.

(** C5.  When a first [add_attribute] returned, a second one with the same
    logical name raises [DuplicateAttributeError], and the attribute of the
    first call is in the attribute list, which is the old one with that
    attribute appended. *)
Theorem add_attribute_duplicate_rejected o a1 a2 o1 :
  logical_name a1 = logical_name a2 →
  add_attribute a1 o = inr o1 →
  add_attribute a2 o1 = inl DuplicateAttributeError ∧
  a1 ∈ attributes o1 ∧
  attributes o1 = attributes o ++ [a1].
Proof.
  intros Hname [Hfresh ->]%add_attribute_inr. simpl.
  split; [|split; [set_solver|done]].
  unfold add_attribute; simpl.
  rewrite bool_decide_eq_true_2; [done|].
  rewrite fmap_app, <- Hname. set_solver.
Qed.

(** ** Object descriptors *)

(** C1.  After every call of the constructor of a physical entity, whether
    it returned or raised, the name of the backing instance is the instance
    name that was passed when the create flag is set, and the empty string
    when it is not. *)
Theorem physical_entity_name_tag create name l sname opts s :
  heap (state_of
          (SpaceFOMPhysicalEntityObject_init create name l sname opts s)) !! l
  = Some (if create then name else "").
Proof.
  unfold SpaceFOMPhysicalEntityObject_init, state_of.
  rewrite bind_run.
  destruct create; simpl; [|apply lookup_insert_eq].
  rewrite bind_run, lift_run.
  destruct (TrickHLAObjectConfig_init _ _ _ _ _ _ _ _ _ _ _);
    rewrite ?lift_run; simpl; apply lookup_insert_eq.
Qed.

(** The constructor writes to no other backing instance. *)
Lemma physical_entity_name_tag_frame create name l sname opts s l' :
  l' ≠ l →
  heap (state_of
          (SpaceFOMPhysicalEntityObject_init create name l sname opts s)) !! l'
  = heap s !! l'.
Proof.
  intros Hl. unfold SpaceFOMPhysicalEntityObject_init, state_of.
  rewrite bind_run.
  destruct create; simpl; [|by apply lookup_insert_ne].
  rewrite bind_run, lift_run.
  destruct (TrickHLAObjectConfig_init _ _ _ _ _ _ _ _ _ _ _);
    rewrite ?lift_run; simpl; by apply lookup_insert_ne.
Qed.

(** C4.  With the create flag set and an empty instance name, the
    constructor of an object descriptor raises [ConfigurationError], and so
    does the constructor of a physical entity, which calls it: no descriptor
    is built. *)
Theorem create_without_name_rejected :
  (∀ FOM_name lag_comp lag_comp_type ownership deleted conditional
     packing manager thread_IDs,
     TrickHLAObjectConfig_init true "" FOM_name lag_comp lag_comp_type
       ownership deleted conditional packing manager thread_IDs
     = inl ConfigurationError) ∧
  (∀ l sname opts s,
     result_of (SpaceFOMPhysicalEntityObject_init true "" l sname opts s)
     = inl ConfigurationError).
Proof. split; reflexivity. Qed.

(** In every other case the constructor of a physical entity returns. *)
Lemma physical_entity_init_returns create name l sname opts s :
  create = false ∨ name ≠ "" →
  succeeds
    (result_of (SpaceFOMPhysicalEntityObject_init create name l sname opts s)).
Proof.
  intros Hok.
  assert (Hinit : create && bool_decide (name = "") = false).
  { destruct Hok as [->|Hname]; [done|].
    by rewrite (bool_decide_eq_false_2 _ Hname), andb_false_r. }
  unfold SpaceFOMPhysicalEntityObject_init, result_of. unfold_pass.
  rewrite Hinit. destruct create; simpl; by apply add_attributes_fresh.
Qed.

(** A physical entity that was constructed has exactly the nine attributes,
    each published by the creator and subscribed to by everyone else. *)
Lemma physical_entity_attributes create name l sname opts s self :
  result_of (SpaceFOMPhysicalEntityObject_init create name l sname opts s)
    = inr self →
  hla_create (entity_object self) = create ∧
  length (attributes (entity_object self)) = 9 ∧
  Forall (creator_publishes create) (attributes (entity_object self)).
Proof.
  unfold SpaceFOMPhysicalEntityObject_init, result_of. unfold_pass.
  destruct (create && bool_decide (name = "")) eqn:Hinit.
  { destruct create; simpl; rewrite ?Hinit; discriminate. }
  assert (Hrun :
    add_attributes
      {| entity_object :=
           {| hla_create := create; hla_instance_name := name;
              hla_FOM_name := entity_FOM_name;
              hla_lag_comp := entity_lag_comp opts;
              hla_lag_comp_type := entity_lag_comp_type opts;
              hla_ownership := entity_ownership opts;
              hla_deleted := entity_deleted opts;
              hla_conditional := entity_conditional opts;
              hla_packing_instance := Some l;
              hla_manager_object := entity_thla_manager_object opts;
              hla_thread_IDs := entity_thread_IDs opts;
              attributes := [] |};
         trick_entity_sim_obj_name := sname |} = inr self →
    hla_create (entity_object self) = create ∧
    length (attributes (entity_object self)) = 9 ∧
    Forall (creator_publishes create) (attributes (entity_object self))).
  { intros Hadd.
    destruct (add_attributes_built _ _ Hadd)
      as (Hcreate & built & Hattrs & Hlen & _ & Hall).
    simpl in Hcreate, Hattrs, Hall. by rewrite Hattrs. }
  destruct create; simpl; rewrite ?Hinit; simpl; exact Hrun.
Qed.

(** C7.  [add_fed_object] hands the descriptor over as it is: it becomes the
    last object of the federate, the earlier ones and the root frame stay.
    For the wheelbot object in particular the federate receives the create
    flag, the names, the hooks and the one attribute ['state'] with exactly
    the values the input file wrote. *)
Theorem wheelbot_object_handed_over_unchanged :
  (∀ d federate,
     last (fed_objects (add_fed_object d federate)) = Some d ∧
     fed_objects (add_fed_object d federate) = fed_objects federate ++ [d] ∧
     root_frame (add_fed_object d federate) = root_frame federate) ∧
  (∀ federate,
     ∃ federate',
       wheelbot_object_config federate = inr federate' ∧
       last (fed_objects federate') =
         Some (ObjectDescriptor
                 (with_attributes [wheelbot_state] wheelbot_object)) ∧
       publish wheelbot_state = true ∧ subscribe wheelbot_state = false).
Proof.
  split.
  - intros d federate. simpl. by rewrite last_snoc.
  - intros federate. eexists. split; [reflexivity|].
    simpl. by rewrite last_snoc.
Qed.

(** ** Reference frames *)

(** What the frame constructor does when it returns. *)
Lemma ref_frame_init_ok create name l sname parent opts s :
  name ≠ "" →
  parent_exists parent (registry s) →
  SpaceFOMRefFrameObject_init create name l sname parent opts s =
  ({| heap := set_name l (if create then name else "") (heap s);
      registry :=
        registry s ++ [built_frame create name l sname parent opts] |},
   inr (built_frame create name l sname parent opts)).
Proof.
  intros Hname Hparent.
  unfold SpaceFOMRefFrameObject_init. unfold_pass.
  rewrite (bool_decide_eq_false_2 _ Hname), andb_false_r.
  destruct parent as [[pinst pname]|]; simpl in *; [|done].
  by rewrite (bool_decide_eq_true_2 _ Hparent).
Qed.

(** C6.  The frame constructor raises [DanglingParentError] exactly when the
    parent name it is given is the name of no descriptor built so far.  So
    after the barycenter and the Sun frames, the Earth frame, whose parent is
    the Earth-Moon barycenter frame, is rejected; once the Earth-Moon
    barycenter frame has been built, it is accepted. *)
Theorem dangling_parent_rejected :
  (∀ create name l sname pinst pname opts s,
     result_of (SpaceFOMRefFrameObject_init create name l sname
                  (Some (pinst, pname)) opts s) = inl DanglingParentError
     ↔ pname ∉ fom_type_name <$> registry s) ∧
  result_of ((ssbary_first ;; sun_second ;; earth_frame) empty_sim)
    = inl DanglingParentError ∧
  succeeds
    (result_of
       ((ssbary_first ;; sun_second ;; embary_frame ;; earth_frame)
          empty_sim)).
Proof.
  split; [|split].
  - intros. unfold SpaceFOMRefFrameObject_init, result_of. unfold_pass.
    simpl. case_bool_decide as Hin; simpl; [|done].
    split; [|done]. by destruct (create && bool_decide _).
  - reflexivity.
  - eexists. vm_compute. reflexivity.
Qed.

(** A rejected frame leaves the configuration pass as it was. *)
Lemma dangling_parent_state create name l sname pinst pname opts s :
  pname ∉ fom_type_name <$> registry s →
  state_of (SpaceFOMRefFrameObject_init create name l sname
              (Some (pinst, pname)) opts s) = s.
Proof.
  intros Hin. unfold SpaceFOMRefFrameObject_init, state_of. unfold_pass.
  simpl. by rewrite (bool_decide_eq_false_2 _ Hin).
Qed.

(** *** The registry is ordered parents first *)

Lemma parents_first_nil : parents_first [].
Proof. intros i f p Hi. by rewrite lookup_nil in Hi. Qed.

Lemma parents_first_snoc frames f :
  parents_first frames →
  (∀ p, parent_frame_name f = Some p → p ∈ fom_type_name <$> frames) →
  parents_first (frames ++ [f]).
Proof.
  intros Hframes Hf i g p Hi Hp.
  destruct (decide (i < length frames)) as [Hlt|Hge].
  - rewrite lookup_app_l in Hi by done.
    destruct (Hframes i g p Hi Hp) as (j & h & Hj & Hh & Hname).
    exists j, h. split; [done|]. split; [|done].
    rewrite lookup_app_l; [done|lia].
  - rewrite lookup_app_r in Hi by lia.
    apply list_lookup_singleton_Some in Hi as [Hi <-].
    apply Hf in Hp. apply list_elem_of_fmap in Hp as (h & -> & Hh).
    apply list_elem_of_lookup in Hh as [j Hj].
    exists j, h. pose proof (lookup_lt_Some _ _ _ Hj).
    split; [lia|]. split; [|done]. by rewrite lookup_app_l.
Qed.

(** The constructor keeps the registry in that order, whether it returns or
    raises. *)
Lemma ref_frame_init_parents_first create name l sname parent opts s :
  parents_first (registry s) →
  parents_first
    (registry
       (state_of (SpaceFOMRefFrameObject_init create name l sname parent
                    opts s))).
Proof.
  intros Hs. unfold SpaceFOMRefFrameObject_init, state_of. unfold_pass.
  destruct parent as [[pinst pname]|]; simpl.
  - case_bool_decide as Hin; simpl; [|done].
    destruct (create && bool_decide (name = "")); simpl; [done|].
    apply parents_first_snoc; [done|]. by intros p [= <-].
  - destruct (create && bool_decide (name = "")); simpl; [done|].
    by apply parents_first_snoc.
Qed.

(** In a registry in that order every frame reaches a frame without
    parent. *)
Lemma parents_first_reaches_root frames f :
  parents_first frames → f ∈ frames → reaches_root frames f.
Proof.
  intros Hframes Hf. apply list_elem_of_lookup in Hf as [i Hi].
  revert f Hi. induction (lt_wf i) as [i _ IH]. intros f Hi.
  destruct (parent_frame_name f) as [p|] eqn:Hp.
  - destruct (Hframes i f p Hi Hp) as (j & g & Hj & Hg & Hname).
    apply (reaches_root_up frames f p g); try done.
    + by apply list_elem_of_lookup_2 in Hi.
    + by apply list_elem_of_lookup_2 in Hg.
    + by apply (IH j).
  - apply reaches_root_here; [|done]. by apply list_elem_of_lookup_2 in Hi.
Qed.

(** [depth] finds only paths that exist. *)
Lemma depth_reaches_root fuel frames f n :
  f ∈ frames → depth fuel frames f = Some n → reaches_root frames f.
Proof.
  revert f n. induction fuel as [|fuel IH]; intros f n Hf; simpl.
  - destruct (parent_frame_name f) eqn:Hp; [done|].
    intros _. by apply reaches_root_here.
  - destruct (parent_frame_name f) as [p|] eqn:Hp;
      [|intros _; by apply reaches_root_here].
    destruct (filter _ frames) as [|g gs] eqn:Hg; [done|].
    destruct (depth fuel frames g) as [m|] eqn:Hd; [|done]. intros _.
    assert (Hin : g ∈ filter (λ g, is_named p g = true) frames)
      by (rewrite Hg; left).
    apply list_elem_of_filter in Hin as [Hnamed Hin].
    apply (reaches_root_up frames f p g); try done.
    + unfold is_named in Hnamed. by apply bool_decide_eq_true in Hnamed.
    + by apply (IH g m).
Qed.

(** C2.  From a configuration pass in which no frame exists yet, the
    constructor of the JEOD tree returns, and the nine frames it has built
    and handed to the federate form a tree: the only frame without parent is
    the solar-system barycenter frame, which is the root frame of the
    federate; the parent name of every other frame is the name of exactly
    one frame of the nine, another one; and every frame reaches the root by
    following parent names. *)
Theorem jeod_frames_form_tree federate tree create lag_comp_type h :
  let r := JEODRefFrameTreeObject_init federate tree create lag_comp_type
             {| heap := h; registry := [] |} in
  ∃ root federate',
    result_of r = inr federate' ∧
    root_frame federate' = Some root ∧
    fom_type_name root = "SolarSystemBarycentricInertial" ∧
    fed_objects federate' =
      fed_objects federate ++
      (ReferenceFrameDescriptor <$> registry (state_of r)) ∧
    length (registry (state_of r)) = 9 ∧
    frame_tree (registry (state_of r)) root.
Proof.
  intros r. subst r. unfold JEODRefFrameTreeObject_init.
  do 9 (rewrite bind_run, ref_frame_init_ok;
          [|discriminate|simpl; set_solver]; cbn [registry heap app]).
  eexists _, _. split; [reflexivity|]. split; [reflexivity|].
  split; [reflexivity|].
  split; [simpl; by rewrite <- !app_assoc|]. split; [reflexivity|].
  unfold state_of; cbn [fst mret M_ret ret registry].
  match goal with |- frame_tree ?l _ => set (frames := l) end.
  split.
  - reflexivity.
  - intros f p Hf Hp.
    repeat (apply elem_of_cons in Hf as [-> | Hf]);
      try (by apply elem_of_nil in Hf);
      simpl in Hp; simplify_eq;
      (eexists; split; [reflexivity | discriminate]).
  - intros f Hf.
    assert (∃ n, depth 3 frames f = Some n) as [n Hn].
    { repeat (apply elem_of_cons in Hf as [-> | Hf]);
        try (by apply elem_of_nil in Hf); eexists; reflexivity. }
    by apply (depth_reaches_root 3 _ f n).
Qed.

End Facts.

(** The theorems with a premise, on concrete inputs. *)

Lemma add_attributes_creator_publishes_witness :
  @add_attributes example_constants example_entity
    = inr example_entity_built ∧
  ∃ built,
    attributes (entity_object example_entity_built) =
      attributes (entity_object example_entity) ++ built ∧
    length built = 9 ∧
    logical_name <$> built =
      ["name"; "type"; "status"; "parent_reference_frame"; "state";
       "acceleration"; "rotational_acceleration"; "center_of_mass";
       "body_wrt_structural"] ∧
    Forall (creator_publishes (hla_create (entity_object example_entity)))
      built.
Proof.
  split; [reflexivity|].
  apply (@add_attributes_creator_publishes example_constants
           example_entity example_entity_built).
  reflexivity.
Defined.

Lemma add_attribute_duplicate_rejected_witness :
  let a1 := @wheelbot_state example_constants in
  let a2 := Build_TrickHLAAttributeConfig "state" "veh.vehicle.velocity"
              true false true 8 2 in
  logical_name a1 = logical_name a2 ∧
  add_attribute a1 wheelbot_object
    = inr (with_attributes [a1] wheelbot_object) ∧
  add_attribute a2 (with_attributes [a1] wheelbot_object)
    = inl DuplicateAttributeError ∧
  a1 ∈ attributes (with_attributes [a1] wheelbot_object) ∧
  attributes (with_attributes [a1] wheelbot_object)
    = attributes wheelbot_object ++ [a1].
Proof.
  intros a1 a2. split; [reflexivity|]. split; [reflexivity|].
  apply (add_attribute_duplicate_rejected wheelbot_object a1 a2
           (with_attributes [a1] wheelbot_object)); reflexivity.
Defined.

Lemma dangling_parent_rejected_witness :
  let s := state_of ((ssbary_first ;; sun_second) empty_sim) in
  ("EarthMoonBarycentricInertial" ∉ fom_type_name <$> registry s) ∧
  result_of (earth_frame s) = inl DanglingParentError.
Proof.
  intros s.
  assert (Hnot : "EarthMoonBarycentricInertial" ∉ fom_type_name <$> registry s).
  { apply (bool_decide_unpack _). vm_compute. exact I. }
  split; [exact Hnot|].
  unfold earth_frame.
  apply (proj1 dangling_parent_rejected). exact Hnot.
Defined.

End HLA_facts.

(** * Part VI: properties of the formatting utility *)

Module FormatCode_facts.
Import FormatCode.

#[local] Arguments find_clang_format : simpl never.

Section Runs.
Context {W : Type} (os : OS W).

(** ** Running a sequence *)

Lemma run_bind {A B} (p : Proc A) (f : A → Proc B) (w : W) :
  run os (bind p f) w =
  match run os p w with
  | (log, w', inl s) => (log, w', inl s)
  | (log, w', inr a) =>
      match run os (f a) w' with
      | (log', w'', r) => (log ++ log', w'', r)
      end
  end.
Proof.
  revert w. induction p as [a|s|X q k IH|m k IH|a k IH]; intros w; simpl.
  - by destruct (run os (f a) w) as [[??]?].
  - done.
  - apply IH.
  - rewrite IH. destruct (run os k w) as [[log w'] [s|a]]; [done|].
    by destruct (run os (f a) w') as [[??]?].
  - destruct (react os a w) as [ok w1]. rewrite IH.
    destruct (run os (k ok) w1) as [[log w'] [s|b]]; [done|].
    by destruct (run os (f b) w') as [[??]?].
Qed.

(** ** [find_clang_format] *)


(** An explicit [--llvm_bin] directory that holds the command is used. *)
Lemma find_clang_format_llvm_bin llvm_bin verbose w :
  truthy llvm_bin = true →
  answer os (Isfile (value_of llvm_bin +:+ "/clang-format")) w = true →
  outcome (run os (find_clang_format llvm_bin verbose) w)
  = inr (Some (value_of llvm_bin +:+ "/clang-format")).
Proof.
  intros Hbin Hfile. unfold find_clang_format, outcome.
  rewrite Hbin. simpl. rewrite Hfile. by destruct verbose.
Qed.

(** Without [--llvm_bin] and without [LLVM_HOME], the fixed locations are
    tried in order. *)
Lemma find_clang_format_usr_bin llvm_bin verbose w :
  truthy llvm_bin = false →
  truthy (answer os (Getenv "LLVM_HOME") w) = false →
  answer os (Isfile "/usr/bin/clang-format") w = true →
  outcome (run os (find_clang_format llvm_bin verbose) w)
  = inr (Some "/usr/bin/clang-format").
Proof.
  intros Hbin Hhome Hfile. unfold find_clang_format, outcome.
  rewrite Hbin. simpl. rewrite Hhome. simpl. rewrite Hfile. simpl.
  rewrite Hfile. by destruct verbose.
Qed.

Lemma find_clang_format_usr_local_bin llvm_bin verbose w :
  truthy llvm_bin = false →
  truthy (answer os (Getenv "LLVM_HOME") w) = false →
  answer os (Isfile "/usr/bin/clang-format") w = false →
  answer os (Isfile "/usr/local/bin/clang-format") w = true →
  outcome (run os (find_clang_format llvm_bin verbose) w)
  = inr (Some "/usr/local/bin/clang-format").
Proof.
  intros Hbin Hhome Hfile Hlocal. unfold find_clang_format, outcome.
  rewrite Hbin. simpl. rewrite Hhome. simpl. rewrite Hfile. simpl.
  rewrite Hlocal. simpl. rewrite Hlocal. by destruct verbose.
Qed.

(** With [LLVM_HOME] set to a non-empty value and no [--llvm_bin], the
    search never returns a command: it stops with a failure message,
    whatever [LLVM_HOME] holds. *)
Lemma find_clang_format_llvm_home llvm_bin verbose w :
  truthy llvm_bin = false →
  truthy (answer os (Getenv "LLVM_HOME") w) = true →
  ∃ text, outcome (run os (find_clang_format llvm_bin verbose) w)
          = inl (Failure text).
Proof.
  intros Hbin Hhome. unfold find_clang_format, outcome.
  rewrite Hbin. simpl. rewrite Hhome. simpl.
  destruct (answer os (Isdir _) w), verbose; simpl; eauto.
Qed.


(** ** [main] *)






#[local] Arguments run : simpl never.



(** C10, as amended.  When [--thla_home] has a non-empty value, [main] is
    the program that raises [NameError] for the name [ars] and does nothing
    else: in every world the run asks nothing, prints nothing, changes
    nothing and ends with that exception. *)
Theorem thla_home_flag_raises_name_error (args : Args) :
  truthy (thla_home args) = true →
  main args = Stop (Uncaught (NameError "ars")) ∧
  ∀ w, run os (main args) w = ([], w, inl (Uncaught (NameError "ars"))).
Proof. intros Htruthy. unfold main. by rewrite Htruthy. Qed.

(** An empty value is taken for no value: the home directory comes from the
    environment.  In no case does the value of the flag reach [main]. *)
Lemma thla_home_flag_ignored (args : Args) :
  truthy (thla_home args) = false →
  main args = main (with_thla_home None args).
Proof. intros Hfalsy. unfold main. by rewrite Hfalsy. Qed.

End Runs.

(** ** On the example machine *)

(** [LLVM_HOME] names an existing directory that holds [clang-format] and no
    [--llvm_bin] is given: the search prints where [LLVM_HOME] is and then
    fails with 'Could not find the clang-format command!'; without [verbose]
    it fails in the same way. *)
Lemma find_clang_format_llvm_home_example :
  answer fs_os (Getenv "LLVM_HOME") llvm_home_tree = Some "/opt/llvm/bin" ∧
  answer fs_os (Isdir "/opt/llvm/bin") llvm_home_tree = true ∧
  answer fs_os (Isfile "/opt/llvm/bin/clang-format") llvm_home_tree = true ∧
  run fs_os (find_clang_format None true) llvm_home_tree =
    ([Printed (Status "LLVM_HOME: /opt/llvm/bin")], llvm_home_tree,
     inl (Failure "Could not find the clang-format command!")) ∧
  outcome (run fs_os (find_clang_format None false) llvm_home_tree) =
    inl (Failure "Could not find the clang-format command!").
Proof. repeat split; vm_compute; reflexivity. Qed.




(** C10 as stated does not hold: [--thla_home ''] raises nothing, the run
    ends normally. *)
Lemma empty_thla_home_runs :
  let r := run fs_os (main empty_thla_home_args) thla_tree in
  thla_home empty_thla_home_args = Some "" ∧
  outcome r = inr tt ∧
  last (log_of r) =
    Some (Printed (Success "Finished formatting TrickHLA source code.")).
Proof. repeat split; vm_compute; reflexivity. Qed.


Lemma thla_home_flag_raises_name_error_witness :
  truthy (thla_home thla_home_args) = true ∧
  main thla_home_args = Stop (Uncaught (NameError "ars")) ∧
  ∀ w, run fs_os (main thla_home_args) w
       = ([], w, inl (Uncaught (NameError "ars"))).
Proof.
  split; [reflexivity|].
  apply (thla_home_flag_raises_name_error fs_os thla_home_args).
  reflexivity.
Defined.

End FormatCode_facts.

(** * Part VII: further properties of the mapping layer *)

Module HLA_more.
Import HLA HLA_terms.

Section Facts.
Context `{TrickConstants}.

Lemma append_inj_l (s a b : string) : s +:+ a = s +:+ b → a = b.
Proof. induction s as [|c s IH]; simpl; [done|]. intros [= ?]. auto. Qed.

Lemma add_attribute_appends a o :
  logical_name a ∉ logical_name <$> attributes o →
  add_attribute a o = inr (with_attributes (attributes o ++ [a]) o).
Proof.
  intros Hfresh. unfold add_attribute. by rewrite bool_decide_eq_false_2.
Qed.

Lemma add_attribute_rejects a o :
  logical_name a ∈ logical_name <$> attributes o →
  add_attribute a o = inl DuplicateAttributeError.
Proof.
  intros Htaken. unfold add_attribute. by rewrite bool_decide_eq_true_2.
Qed.

Lemma add_each_inr l : ∀ self,
  NoDup (logical_name <$> l) →
  (∀ a, a ∈ l →
        logical_name a ∉ logical_name <$> attributes (entity_object self)) →
  add_each l self =
  inr {| entity_object :=
           with_attributes (attributes (entity_object self) ++ l)
             (entity_object self);
         trick_entity_sim_obj_name := trick_entity_sim_obj_name self |}.
Proof.
  induction l as [|a l IH]; intros self Hnodup Hfresh.
  { rewrite app_nil_r. by destruct self as [[] ?]. }
  rewrite fmap_cons in Hnodup. apply NoDup_cons in Hnodup as [Ha Hnodup].
  cbn [add_each]. unfold self_add_attribute.
  rewrite add_attribute_appends by (apply Hfresh; by left).
  cbn [mbind result_bind mret result_ret]. rewrite IH; [|done|].
  { cbn [entity_object trick_entity_sim_obj_name with_attributes attributes].
    by rewrite <- app_assoc. }
  intros b Hb.
  cbn [entity_object trick_entity_sim_obj_name with_attributes attributes].
  rewrite fmap_app, elem_of_app. intros [Hin|Hin].
  - apply (Hfresh b); [by right|done].
  - cbn in Hin. apply list_elem_of_singleton in Hin.
    apply Ha. rewrite <- Hin. by apply list_elem_of_fmap_2.
Qed.

Lemma add_each_inl l : ∀ self a,
  a ∈ l →
  logical_name a ∈ logical_name <$> attributes (entity_object self) →
  add_each l self = inl DuplicateAttributeError.
Proof.
  induction l as [|b l IH]; intros self a Ha Htaken.
  { by apply elem_of_nil in Ha. }
  cbn [add_each]. unfold self_add_attribute.
  destruct (decide (logical_name b ∈
                    logical_name <$> attributes (entity_object self)))
    as [Hb|Hb].
  { by rewrite add_attribute_rejects. }
  rewrite add_attribute_appends by done. cbn.
  apply elem_of_cons in Ha as [->|Ha]; [done|].
  apply (IH _ a Ha). cbn. rewrite fmap_app, elem_of_app. by left.
Qed.

Lemma add_attributes_add_each self :
  add_attributes self =
  add_each (entity_attributes (hla_create (entity_object self))
              (trick_entity_sim_obj_name self)) self.
Proof. reflexivity. Qed.

Lemma entity_attributes_names create sim_object :
  logical_name <$> entity_attributes create sim_object
  = entity_attribute_names.
Proof. reflexivity. Qed.

Lemma entity_attribute_names_NoDup : NoDup entity_attribute_names.
Proof.
  refine (bool_decide_unpack (NoDup entity_attribute_names) _).
  vm_compute. exact I.
Qed.

Lemma add_attributes_outcome self :
  let existing := logical_name <$> attributes (entity_object self) in
  match add_attributes self with
  | inr self' =>
      (∀ name, name ∈ entity_attribute_names → name ∉ existing) ∧
      self' =
        {| entity_object :=
             with_attributes
               (attributes (entity_object self) ++
                entity_attributes (hla_create (entity_object self))
                  (trick_entity_sim_obj_name self))
               (entity_object self);
           trick_entity_sim_obj_name := trick_entity_sim_obj_name self |}
  | inl e =>
      e = DuplicateAttributeError ∧
      ∃ name, name ∈ entity_attribute_names ∧ name ∈ existing
  end.
Proof.
  intros existing. rewrite add_attributes_add_each.
  set (l := entity_attributes _ _).
  destruct (decide (Exists (λ a, logical_name a ∈ existing) l)) as [Hex|Hno].
  - apply Exists_exists in Hex as (a & Ha & Htaken).
    rewrite (add_each_inl l self a Ha Htaken). split; [done|].
    exists (logical_name a). split; [|done].
    rewrite <- (entity_attributes_names (hla_create (entity_object self))
                  (trick_entity_sim_obj_name self)).
    by apply list_elem_of_fmap_2.
  - rewrite <- Forall_Exists_neg, Forall_forall in Hno.
    rewrite add_each_inr; [| |done].
    2:{ unfold l. rewrite entity_attributes_names.
        apply entity_attribute_names_NoDup. }
    split; [|done]. intros name Hname.
    rewrite <- (entity_attributes_names (hla_create (entity_object self))
                  (trick_entity_sim_obj_name self)) in Hname.
    apply list_elem_of_fmap in Hname as (a & -> & Ha). by apply Hno.
Qed.

(** X3.  [add_attributes] returns exactly when none of its nine logical names
    is the name of an attribute the object already has, and then it has
    appended its nine attributes; otherwise it raises
    [DuplicateAttributeError]. *)
Theorem add_attributes_returns_iff_fresh self :
  let existing := logical_name <$> attributes (entity_object self) in
  match add_attributes self with
  | inr self' =>
      (∀ name, name ∈ entity_attribute_names → name ∉ existing) ∧
      attributes (entity_object self') =
        attributes (entity_object self) ++
        entity_attributes (hla_create (entity_object self))
          (trick_entity_sim_obj_name self)
  | inl e =>
      e = DuplicateAttributeError ∧
      ∃ name, name ∈ entity_attribute_names ∧ name ∈ existing
  end.
Proof.
  pose proof (add_attributes_outcome self) as Hout. cbn zeta in *.
  destruct (add_attributes self) as [e|self']; [done|].
  destruct Hout as [Hfresh ->]. done.
Qed.

Lemma entity_attributes_bindings create sim_object :
  Forall (entity_attribute create sim_object)
    (entity_attributes create sim_object) ∧
  NoDup (local_binding <$> entity_attributes create sim_object).
Proof.
  split.
  - unfold entity_attributes.
    repeat constructor; cbn; by eexists (String _ _).
  - unfold entity_attributes. cbn [fmap list_fmap local_binding].
    change [sim_object +:+ ".pe_packing_data.name";
            sim_object +:+ ".pe_packing_data.type";
            sim_object +:+ ".pe_packing_data.status";
            sim_object +:+ ".pe_packing_data.parent_frame";
            sim_object +:+ ".stc_encoder.buffer";
            sim_object +:+ ".pe_packing_data.accel";
            sim_object +:+ ".pe_packing_data.ang_accel";
            sim_object +:+ ".pe_packing_data.cm";
            sim_object +:+ ".quat_encoder.buffer"]
      with (String.append sim_object <$>
              [".pe_packing_data.name"; ".pe_packing_data.type";
               ".pe_packing_data.status"; ".pe_packing_data.parent_frame";
               ".stc_encoder.buffer"; ".pe_packing_data.accel";
               ".pe_packing_data.ang_accel"; ".pe_packing_data.cm";
               ".quat_encoder.buffer"]).
    apply NoDup_fmap_2.
    + intros a b. apply append_inj_l.
    + match goal with
      | |- ?G => refine (bool_decide_unpack G _); vm_compute; exact I
      end.
Qed.

(** X4.  Whenever [add_attributes] returns, each attribute it has appended is
    owned by the creator, is sent at initialisation and cyclically, and is
    bound to a variable of the simulation object of the entity; no two of
    them are bound to the same variable. *)
Theorem add_attributes_bindings self self' :
  add_attributes self = inr self' →
  ∃ built,
    attributes (entity_object self') =
      attributes (entity_object self) ++ built ∧
    Forall (entity_attribute (hla_create (entity_object self))
              (trick_entity_sim_obj_name self)) built ∧
    NoDup (local_binding <$> built).
Proof.
  intros Hadd. pose proof (add_attributes_outcome self) as Hiff.
  cbn zeta in Hiff. rewrite Hadd in Hiff. destruct Hiff as [_ ->].
  eexists. split; [reflexivity|]. apply entity_attributes_bindings.
Qed.

(** ** The constructor of a physical entity *)

Lemma physical_entity_init_run create name l sname opts s :
  SpaceFOMPhysicalEntityObject_init create name l sname opts s =
  ({| heap := set_name l (if create then name else "") (heap s);
      registry := registry s |},
   o ← TrickHLAObjectConfig_init create name entity_FOM_name
          (entity_lag_comp opts) (entity_lag_comp_type opts)
          (entity_ownership opts) (entity_deleted opts)
          (entity_conditional opts) (Some l)
          (entity_thla_manager_object opts) (entity_thread_IDs opts);
   add_attributes {| entity_object := o;
                     trick_entity_sim_obj_name := sname |}).
Proof.
  unfold SpaceFOMPhysicalEntityObject_init.
  unfold mbind at 1 2 3, M_bind, bind, lift, modify_heap, result_bind.
  destruct create;
    by destruct (TrickHLAObjectConfig_init _ _ _ _ _ _ _ _ _ _ _).
Qed.

(** X1.  The constructor of a physical entity raises nothing but
    [ConfigurationError], and that only for a create flag with an empty
    name: its nine attribute names are distinct, so no attribute is a
    duplicate.  The object it returns has the name and the create flag it
    was given, the FOM name [PhysicalEntity], the backing instance as
    packing object and exactly the nine attributes. *)
Theorem physical_entity_init_outcome create name l sname opts s :
  match result_of
          (SpaceFOMPhysicalEntityObject_init create name l sname opts s) with
  | inl e => e = ConfigurationError ∧ create = true ∧ name = ""
  | inr self =>
      (create = false ∨ name ≠ "") ∧
      hla_create (entity_object self) = create ∧
      hla_instance_name (entity_object self) = name ∧
      hla_FOM_name (entity_object self) = "PhysicalEntity" ∧
      hla_packing_instance (entity_object self) = Some l ∧
      trick_entity_sim_obj_name self = sname ∧
      attributes (entity_object self) = entity_attributes create sname
  end.
Proof.
  rewrite physical_entity_init_run. unfold result_of. cbn [snd].
  unfold TrickHLAObjectConfig_init.
  destruct (create && bool_decide (name = "")) eqn:Hinit;
    cbn [mbind result_bind].
  { apply andb_true_iff in Hinit as [-> Hname].
    by apply bool_decide_eq_true in Hname. }
  match goal with
  | |- context [add_attributes ?self] =>
      pose proof (add_attributes_outcome self) as Hout;
      destruct (add_attributes self) as [e|self']
  end; cbn zeta in Hout.
  { destruct Hout as (_ & n & _ & Hn). by apply elem_of_nil in Hn. }
  destruct Hout as [_ ->].
  split; [|done].
  apply andb_false_iff in Hinit as [->|Hname]; [by left|right].
  by apply bool_decide_eq_false in Hname.
Qed.

(** X2.  All the constructor of a physical entity does to the configuration
    pass, whether it returns or raises, is to write the name of its backing
    instance: the other backing instances and the frames built so far stay
    as they were. *)
Theorem physical_entity_init_state create name l sname opts s :
  state_of (SpaceFOMPhysicalEntityObject_init create name l sname opts s) =
  {| heap := <[l := if create then name else ""]> (heap s);
     registry := registry s |}.
Proof. by rewrite physical_entity_init_run. Qed.

(** ** The frames of the JEOD tree *)

Lemma jeod_tree_run federate tree create lag_comp_type h :
  ∃ federate',
    JEODRefFrameTreeObject_init federate tree create lag_comp_type
      {| heap := h; registry := [] |}
    = ({| heap :=
            set_name (mars_pfix_frame_ptr tree)
              (if create then "MarsCentricFixed" else "")
            (set_name (moon_pfix_frame_ptr tree)
              (if create then "MoonCentricFixed" else "")
            (set_name (earth_pfix_frame_ptr tree)
              (if create then "EarthCentricFixed" else "")
            (set_name (mars_frame_ptr tree)
              (if create then "MarsCentricInertial" else "")
            (set_name (moon_frame_ptr tree)
              (if create then "MoonCentricInertial" else "")
            (set_name (earth_frame_ptr tree)
              (if create then "EarthMJ2000Eq" else "")
            (set_name (embary_frame_ptr tree)
              (if create then "EarthMoonBarycentricInertial" else "")
            (set_name (sun_frame_ptr tree)
              (if create then "SunCentricInertial" else "")
            (set_name (ssbary_frame_ptr tree)
              (if create then "SolarSystemBarycentricInertial" else "")
              h))))))));
          registry :=
            [ built_frame create "SolarSystemBarycentricInertial"
                (ssbary_frame_ptr tree)
                "solar_system_barycenter.frame_packing" None
                default_frame_options;
              built_frame create "SunCentricInertial" (sun_frame_ptr tree)
                "sun_inertial.frame_packing"
                (Some (PySim "solar_system_barycenter.frame_packing",
                       "SolarSystemBarycentricInertial"))
                (hooks_of "sun_inertial" lag_comp_type);
              built_frame create "EarthMoonBarycentricInertial"
                (embary_frame_ptr tree)
                "earth_moon_barycenter.frame_packing"
                (Some (PySim "solar_system_barycenter.frame_packing",
                       "SolarSystemBarycentricInertial"))
                (hooks_of "earth_moon_barycenter" lag_comp_type);
              built_frame create "EarthMJ2000Eq" (earth_frame_ptr tree)
                "earth_centered_inertial.frame_packing"
                (Some (PySim "earth_moon_barycenter.frame_packing",
                       "EarthMoonBarycentricInertial"))
                (hooks_of "earth_centered_inertial" lag_comp_type);
              built_frame create "MoonCentricInertial" (moon_frame_ptr tree)
                "moon_centered_inertial.frame_packing"
                (Some (PySim "earth_moon_barycenter.frame_packing",
                       "EarthMoonBarycentricInertial"))
                (hooks_of "moon_centered_inertial" lag_comp_type);
              built_frame create "MarsCentricInertial" (mars_frame_ptr tree)
                "mars_centered_inertial.frame_packing"
                (Some (PySim "solar_system_barycenter.frame_packing",
                       "SolarSystemBarycentricInertial"))
                (hooks_of "mars_centered_inertial" lag_comp_type);
              built_frame create "EarthCentricFixed"
                (earth_pfix_frame_ptr tree)
                "earth_centered_fixed.frame_packing"
                (Some (PySim "earth_centered_inertial.frame_packing",
                       "EarthMJ2000Eq"))
                (hooks_of "earth_centered_fixed" lag_comp_type);
              built_frame create "MoonCentricFixed"
                (moon_pfix_frame_ptr tree)
                "moon_centered_fixed.frame_packing"
                (Some (PySim "moon_centered_inertial.frame_packing",
                       "MoonCentricInertial"))
                (hooks_of "moon_centered_fixed" lag_comp_type);
              built_frame create "MarsCentricFixed"
                (mars_pfix_frame_ptr tree)
                "mars_centered_fixed.frame_packing"
                (Some (PySim "mars_centered_inertial.frame_packing",
                       "MarsCentricInertial"))
                (hooks_of "mars_centered_fixed" lag_comp_type) ] |},
       inr federate').
Proof.
  unfold JEODRefFrameTreeObject_init.
  do 9 (rewrite HLA_facts.bind_run, HLA_facts.ref_frame_init_ok;
          [|discriminate|simpl; set_solver]; cbn [registry heap app]).
  eexists. reflexivity.
Qed.

Ltac each_frame Hf :=
  repeat (apply elem_of_cons in Hf as [-> | Hf]);
  try (by apply elem_of_nil in Hf).

Ltac parent_at i :=
  solve [ eexists; split;
          [ apply list_elem_of_lookup; exists i; reflexivity
          | split; reflexivity ] ].

(** X5.  In the JEOD tree the parent of a frame is given twice, as a packing
    object and as a name; the two agree: the packing object is the one the
    frame of that name was built with. *)
Theorem jeod_parent_instance_matches_name federate tree create lag_comp_type
  h :
  let r := JEODRefFrameTreeObject_init federate tree create lag_comp_type
             {| heap := h; registry := [] |} in
  ∀ f p, f ∈ registry (state_of r) → parent_frame_name f = Some p →
    ∃ g, g ∈ registry (state_of r) ∧ fom_type_name g = p ∧
         parent_S_define_instance f = PySim (frame_S_define_instance_name g).
Proof.
  destruct (jeod_tree_run federate tree create lag_comp_type h)
    as [federate' ->].
  unfold state_of; cbn [fst registry]. intros f p Hf Hp.
  each_frame Hf; cbn in Hp; simplify_eq.
  all: first [ parent_at 0 | parent_at 1 | parent_at 2 | parent_at 3
             | parent_at 4 | parent_at 5 ].
Qed.

(** X6.  Every frame of the JEOD tree carries the create flag the constructor
    was given.  The root has no hooks and no lag compensation, whatever
    [lag_comp_type] was passed; every other frame has the hooks of the
    simulation object its own packing object belongs to, and the
    [lag_comp_type] that was passed. *)
Theorem jeod_frame_hooks federate tree create lag_comp_type h :
  let r := JEODRefFrameTreeObject_init federate tree create lag_comp_type
             {| heap := h; registry := [] |} in
  ∀ f, f ∈ registry (state_of r) →
    hla_create (frame_object f) = create ∧
    match parent_frame_name f with
    | None => options_of f = default_frame_options
    | Some _ =>
        ∃ sim_object,
          frame_S_define_instance_name f = sim_object +:+ ".frame_packing" ∧
          options_of f = hooks_of sim_object lag_comp_type
    end.
Proof.
  destruct (jeod_tree_run federate tree create lag_comp_type h)
    as [federate' ->].
  unfold state_of; cbn [fst registry]. intros f Hf.
  each_frame Hf; (split; [reflexivity|]); cbn; [reflexivity|..].
  - by exists "sun_inertial".
  - by exists "earth_moon_barycenter".
  - by exists "earth_centered_inertial".
  - by exists "moon_centered_inertial".
  - by exists "mars_centered_inertial".
  - by exists "earth_centered_fixed".
  - by exists "moon_centered_fixed".
  - by exists "mars_centered_fixed".
Qed.

End Facts.

(** The theorems with a premise, on concrete inputs. *)

Lemma add_attributes_bindings_witness :
  @add_attributes example_constants example_entity
    = inr example_entity_built ∧
  ∃ built,
    attributes (entity_object example_entity_built) =
      attributes (entity_object example_entity) ++ built ∧
    Forall (@entity_attribute example_constants true "lander") built ∧
    NoDup (local_binding <$> built).
Proof.
  split; [reflexivity|].
  apply (@add_attributes_bindings example_constants example_entity
           example_entity_built).
  reflexivity.
Defined.

Lemma jeod_parent_instance_matches_name_witness :
  let frames : list SpaceFOMRefFrameObject :=
    registry
      (state_of
         (@JEODRefFrameTreeObject_init example_constants example_federate
            example_tree true (PyInt 0) empty_sim)) in
  example_earth_frame ∈ frames ∧
  parent_frame_name example_earth_frame
    = Some "EarthMoonBarycentricInertial" ∧
  ∃ g, g ∈ frames ∧
       fom_type_name g = "EarthMoonBarycentricInertial" ∧
       parent_S_define_instance example_earth_frame
       = PySim (frame_S_define_instance_name g).
Proof.
  intros frames.
  assert (Hin : example_earth_frame ∈ frames).
  { apply list_elem_of_lookup. exists 3. reflexivity. }
  split; [exact Hin|]. split; [reflexivity|].
  apply (@jeod_parent_instance_matches_name example_constants
           example_federate example_tree true (PyInt 0) ∅
           example_earth_frame "EarthMoonBarycentricInertial");
    [exact Hin|reflexivity].
Defined.

Lemma jeod_frame_hooks_witness :
  let frames : list SpaceFOMRefFrameObject :=
    registry
      (state_of
         (@JEODRefFrameTreeObject_init example_constants example_federate
            example_tree true (PyInt 0) empty_sim)) in
  example_earth_frame ∈ frames ∧
  hla_create (frame_object example_earth_frame) = true ∧
  match parent_frame_name example_earth_frame with
  | None =>
      options_of example_earth_frame
      = @default_frame_options example_constants
  | Some _ =>
      ∃ sim_object,
        frame_S_define_instance_name example_earth_frame
        = sim_object +:+ ".frame_packing" ∧
        options_of example_earth_frame = hooks_of sim_object (PyInt 0)
  end.
Proof.
  intros frames.
  assert (Hin : example_earth_frame ∈ frames).
  { apply list_elem_of_lookup. exists 3. reflexivity. }
  split; [exact Hin|].
  apply (@jeod_frame_hooks example_constants example_federate example_tree
           true (PyInt 0) ∅ example_earth_frame).
  exact Hin.
Defined.

End HLA_more.

(** * Part VIII: further properties of the formatting utility *)

Module FormatCode_more.
Import FormatCode FormatCode_terms.

(** ** The order of strings *)

Lemma ltb_false_leb (a b : string) :
  String.ltb a b = false ↔ String.leb b a = true.
Proof.
  unfold String.ltb, String.leb. rewrite (String.compare_antisym a b).
  destruct (String.compare b a); simpl; split; congruence.
Qed.

Lemma ltb_true_leb (a b : string) :
  String.ltb a b = true → String.leb a b = true.
Proof. unfold String.ltb, String.leb. by destruct (String.compare a b). Qed.

Lemma leb_refl (a : string) : String.leb a a = true.
Proof. by destruct (String.leb_total a a). Qed.

Lemma leb_trans (a b c : string) :
  String.leb a b = true → String.leb b c = true → String.leb a c = true.
Proof.
  intros Hab Hbc.
  assert (H : String.le a c).
  { transitivity b; unfold String.le; [by rewrite Hab | by rewrite Hbc]. }
  unfold String.le in H. by destruct (String.leb a c).
Qed.

Lemma latest_version_fold versions acc :
  let m := latest_version acc versions in
  (m = acc ∨ m ∈ versions) ∧
  String.leb acc m = true ∧
  ∀ v, v ∈ versions → String.leb v m = true.
Proof.
  unfold latest_version. revert acc.
  induction versions as [|v versions IH]; intros acc; simpl.
  - split; [by left|]. split; [apply leb_refl|]. intros v Hv.
    by apply elem_of_nil in Hv.
  - destruct (IH (if String.ltb acc v then v else acc))
      as (Hin & Hacc & Hall).
    destruct (String.ltb acc v) eqn:Hlt.
    + split; [right; destruct Hin as [->|Hin]; [left|by right]|].
      split; [eapply leb_trans; [by apply ltb_true_leb|done]|].
      intros u [->|Hu]%elem_of_cons; [done|by apply Hall].
    + split; [destruct Hin as [->|Hin]; [by left|right; by right]|].
      split; [done|].
      intros u [->|Hu]%elem_of_cons; [|by apply Hall].
      eapply leb_trans; [by apply ltb_false_leb|done].
Qed.

(** X10.  The loop over the version directories, lines 207 to 210, ends
    with a name of the list that no name of the list is greater than, in the
    order of strings. *)
Theorem latest_version_is_greatest first rest :
  let m := latest_version first (first :: rest) in
  m ∈ first :: rest ∧ ∀ v, v ∈ first :: rest → String.ltb m v = false.
Proof.
  intros m.
  destruct (latest_version_fold (first :: rest) first) as (Hin & _ & Hall).
  fold m in Hin, Hall. split.
  - destruct Hin as [->|Hin]; [left|done].
  - intros v Hv. apply ltb_false_leb. by apply Hall.
Qed.

(** ** Rules for [always] *)

Section Always.
Context {W : Type} (os : OS W) (P : log_entry → Prop).

Lemma always_ret {A} (a : A) : always os P (Ret a).
Proof. intros w. constructor. Qed.

Lemma always_stop {A} s : always os P (@Stop A s).
Proof. intros w. constructor. Qed.

Lemma always_ask {A X} (q : query X) (k : X → Proc A) :
  (∀ x, always os P (k x)) → always os P (Ask q k).
Proof. intros Hk w. apply Hk. Qed.

Lemma always_say {A} m (k : Proc A) :
  P (Printed m) → always os P k → always os P (Say m k).
Proof.
  intros Hm Hk w. unfold log_of. simpl. specialize (Hk w).
  unfold log_of in Hk.
  destruct (run os k w) as [[log w'] r]. simpl in *. by constructor.
Qed.

Lemma always_act {A} a (k : bool → Proc A) :
  (∀ ok, P (Performed a ok)) → (∀ ok, always os P (k ok)) →
  always os P (Act a k).
Proof.
  intros Ha Hk w. unfold log_of. simpl.
  destruct (react os a w) as [ok w1]. specialize (Hk ok w1).
  unfold log_of in Hk.
  destruct (run os (k ok) w1) as [[log w'] r]. simpl in *. by constructor.
Qed.

Lemma always_bind {A B} (p : Proc A) (f : A → Proc B) :
  always os P p → (∀ a, always os P (f a)) → always os P (bind p f).
Proof.
  intros Hp Hf w. rewrite FormatCode_facts.run_bind.
  specialize (Hp w). unfold log_of in *.
  destruct (run os p w) as [[log w'] [s|a]]; simpl in *; [done|].
  specialize (Hf a w').
  destruct (run os (f a) w') as [[log' w''] r]; simpl in *.
  by apply Forall_app.
Qed.

Lemma always_for_each {A} (l : list A) (body : A → Proc unit) :
  (∀ x, x ∈ l → always os P (body x)) → always os P (for_each l body).
Proof.
  induction l as [|x l IH]; intros Hbody; simpl.
  - apply always_ret.
  - apply always_bind; [apply Hbody; left|].
    intros _. apply IH. intros y Hy. apply Hbody. by right.
Qed.

End Always.

Ltac always_step :=
  unfold status, warning, error, success, pass, failure, act, ask, os_system;
  cbn [bind negb andb orb];
  lazymatch goal with
  | |- always _ _ (Ret _) => apply always_ret
  | |- always _ _ (Stop _) => apply always_stop
  | |- always _ _ (Ask _ _) => apply always_ask; intros ?
  | |- always _ _ (Say _ _) => apply always_say; [try done|]
  | |- always _ _ (Act _ _) =>
      apply always_act; [intros ?; try done | intros ?]
  | |- always _ _ (bind _ _) => apply always_bind; [|intros ?]
  | |- always _ _ (for_each _ _) => apply always_for_each; intros ? ?
  | |- always _ _ (if ?b then _ else _) => destruct b eqn:?
  | |- always _ _ (match ?x with _ => _ end) => destruct x eqn:?
  end.

(** ** Rules for [closes] *)

Section Closes.
Context {W : Type} (os : OS W) (P : log_entry → Prop) (e : log_entry).

Lemma closes_ask {A X} (q : query X) (k : X → Proc A) :
  (∀ x, closes os P e (k x)) → closes os P e (Ask q k).
Proof. intros Hk w. apply Hk. Qed.

Lemma closes_say {A} m (k : Proc A) :
  P (Printed m) → closes os P e k → closes os P e (Say m k).
Proof.
  intros Hm Hk w. specialize (Hk w).
  unfold closes_at, log_of, outcome in *. simpl.
  destruct (run os k w) as [[log w'] [s|a]]; simpl in *.
  - by constructor.
  - destruct Hk as (log0 & -> & Hlog). exists (Printed m :: log0).
    split; [done|]. by constructor.
Qed.

Lemma closes_act {A} a (k : bool → Proc A) :
  (∀ ok, P (Performed a ok)) → (∀ ok, closes os P e (k ok)) →
  closes os P e (Act a k).
Proof.
  intros Ha Hk w. unfold closes_at, log_of, outcome. simpl.
  destruct (react os a w) as [ok w1]. specialize (Hk ok w1).
  unfold closes_at, log_of, outcome in Hk.
  destruct (run os (k ok) w1) as [[log w'] [s|b]]; simpl in *.
  - by constructor.
  - destruct Hk as (log0 & -> & Hlog). exists (Performed a ok :: log0).
    split; [done|]. by constructor.
Qed.

Lemma closes_bind {A B} (p : Proc A) (f : A → Proc B) :
  always os P p → (∀ a, closes os P e (f a)) → closes os P e (bind p f).
Proof.
  intros Hp Hf w. unfold closes_at. rewrite FormatCode_facts.run_bind.
  specialize (Hp w). unfold log_of, outcome in *.
  destruct (run os p w) as [[log w'] [s|a]]; simpl in *; [done|].
  specialize (Hf a w'). unfold closes_at, log_of, outcome in Hf.
  destruct (run os (f a) w') as [[log' w''] [s|b]]; simpl in *.
  - by apply Forall_app.
  - destruct Hf as (log0 & -> & Hlog). exists (log ++ log0).
    split; [by rewrite app_assoc|]. by apply Forall_app.
Qed.

Lemma closes_last_say m : e = Printed m → closes os P e (Say m (Ret tt)).
Proof. intros -> w. exists []. by split. Qed.

Lemma closes_last_act {A} a (r : A) s :
  e = Performed a true → P (Performed a false) →
  closes os P e (Act a (λ ok, if ok then Ret r else Stop s)).
Proof.
  intros -> Hrefused w. unfold closes_at, log_of, outcome. simpl.
  destruct (react os a w) as [[] w1]; simpl.
  - exists []. by split.
  - by constructor.
Qed.

Lemma closes_final_act {A} a (r : A) :
  e = Performed a true → P (Performed a false) →
  closes os P e (bind (act a) (λ _, Ret r)).
Proof.
  intros -> Hrefused w. unfold closes_at, log_of, outcome. simpl.
  destruct (react os a w) as [[] w1]; simpl.
  - exists []. by split.
  - by constructor.
Qed.

Lemma closes_at_ask {A X} (q : query X) (k : X → Proc A) w :
  closes_at os P e (k (answer os q w)) w → closes_at os P e (Ask q k) w.
Proof. done. Qed.

Lemma closes_at_say {A} m (k : Proc A) w :
  P (Printed m) → closes_at os P e k w → closes_at os P e (Say m k) w.
Proof.
  intros Hm Hk. unfold closes_at, log_of, outcome in *. simpl.
  destruct (run os k w) as [[log w'] [s|a]]; simpl in *.
  - by constructor.
  - destruct Hk as (log0 & -> & Hlog). exists (Printed m :: log0).
    split; [done|]. by constructor.
Qed.

Lemma closes_at_all {A} (p : Proc A) w :
  closes os P e p → closes_at os P e p w.
Proof. intros Hp. apply Hp. Qed.

Lemma closes_at_last {A} (p : Proc A) w r :
  closes_at os P e p w → outcome (run os p w) = inr r →
  last (log_of (run os p w)) = Some e.
Proof.
  unfold closes_at. intros Hc Hout. rewrite Hout in Hc.
  destruct Hc as (log & -> & _). apply last_snoc.
Qed.

End Closes.

Ltac closes_step :=
  lazymatch goal with
  | |- closes _ _ _ (bind (act _) (λ _, Ret _)) =>
      by apply closes_final_act
  | |- closes _ _ _ (act _) => by apply closes_last_act
  | |- closes _ _ _ (Say _ (Ret tt)) => by apply closes_last_say
  | |- closes _ _ _ (Ask _ _) => apply closes_ask; intros ?
  | |- closes _ _ _ (Say _ _) => apply closes_say; [try done|]
  | |- closes _ _ _ (Act _ _) =>
      apply closes_act; [intros ?; try done | intros ?]
  | |- closes _ _ _ (bind _ _) => apply closes_bind; [|intros ?]
  | |- closes _ _ _ (if ?b then _ else _) => destruct b eqn:?
  | |- closes _ _ _ (match ?x with _ => _ end) => destruct x eqn:?
  end.

Section Runs.
Context {W : Type} (os : OS W).

Lemma always_anything {A} (p : Proc A) : always os anything p.
Proof. intros w. apply Forall_forall. done. Qed.

Lemma returns_bind {A B} Q (p : Proc A) (f : A → Proc B) :
  (∀ a, returns os Q (f a)) → returns os Q (bind p f).
Proof.
  intros Hf w b. rewrite FormatCode_facts.run_bind. unfold outcome.
  destruct (run os p w) as [[log w'] [s|a]]; simpl; [discriminate|].
  specialize (Hf a w' b). unfold outcome in Hf.
  by destruct (run os (f a) w') as [[log' w''] r].
Qed.

Lemma returns_ask {A X} Q (q : query X) (k : X → Proc A) :
  (∀ x, returns os Q (k x)) → returns os Q (Ask q k).
Proof. intros Hk w a. apply Hk. Qed.

Lemma returns_ret {A} (Q : A → Prop) a : Q a → returns os Q (Ret a).
Proof. intros Ha w b [= <-]. done. Qed.

(** ** [find_clang_format] *)

Lemma find_clang_format_reads_only llvm_bin verbose w :
  world_of (run os (find_clang_format llvm_bin verbose) w) = w ∧
  Forall (λ e, ∃ text, e = Printed (Status text))
    (log_of (run os (find_clang_format llvm_bin verbose) w)).
Proof.
  unfold find_clang_format, world_of, log_of.
  destruct (truthy llvm_bin); simpl.
  - destruct (answer os (Isfile _) w); simpl; [destruct verbose|]; simpl;
      repeat constructor; eauto.
  - destruct (truthy (answer os (Getenv "LLVM_HOME") w)); simpl.
    + destruct (answer os (Isdir _) w); simpl; [destruct verbose|]; simpl;
        repeat constructor; eauto.
    + repeat (lazymatch goal with
              | |- context [answer os ?q w] =>
                  destruct (answer os q w); simpl
              | |- context [if verbose then _ else _] =>
                  destruct verbose; simpl
              end);
        repeat constructor; eauto.
Qed.

(** X7.  The search for the command only asks and reports: it leaves the
    world as it was, and all it prints are status messages. *)
Theorem find_clang_format_touches_nothing llvm_bin verbose w :
  let r := run os (find_clang_format llvm_bin verbose) w in
  world_of r = w ∧
  Forall (λ e, ∃ text, e = Printed (Status text)) (log_of r).
Proof. apply find_clang_format_reads_only. Qed.

(** X8.  Whenever the search returns, it returns a path, and that path is
    an existing file: [None] is never returned, although the function
    starts from it. *)
Theorem find_clang_format_returns_a_file llvm_bin verbose w r :
  outcome (run os (find_clang_format llvm_bin verbose) w) = inr r →
  ∃ path, r = Some path ∧ answer os (Isfile path) w = true.
Proof.
  unfold find_clang_format, outcome.
  destruct (truthy llvm_bin); simpl.
  - destruct (answer os (Isfile _) w) eqn:E; simpl; [destruct verbose|];
      simpl; intros [= <-]; eauto.
  - destruct (truthy (answer os (Getenv "LLVM_HOME") w)); simpl.
    + destruct (answer os (Isdir _) w); simpl; [destruct verbose|]; simpl;
        discriminate.
    + destruct (answer os (Isfile "/usr/bin/clang-format") w) eqn:E1; simpl.
      { rewrite E1. destruct verbose; simpl; intros [= <-]; eauto. }
      destruct (answer os (Isfile "/usr/local/bin/clang-format") w) eqn:E2;
        simpl.
      { rewrite E2. destruct verbose; simpl; intros [= <-]; eauto. }
      destruct (answer os (Isdir "/usr/local/Cellar/llvm") w); simpl;
        [|discriminate].
      destruct (answer os (Listdir _) w) as [|first rest]; simpl;
        [discriminate|].
      match goal with
      | |- context [answer os (Isfile ?p) w] =>
          destruct (answer os (Isfile p) w) eqn:E3
      end; simpl; [|discriminate].
      destruct verbose; simpl; intros [= <-]; eauto.
Qed.

(** X9.  With no [--llvm_bin] and [LLVM_HOME] set to a non-empty value the
    search never yields a command.  Where [LLVM_HOME] is no directory it
    fails with the message for that; where it is one, the command formed
    from it goes to a variable that is not read again, and the search fails
    with the message for no command found. *)
Theorem llvm_home_never_yields_a_command llvm_bin verbose w :
  truthy llvm_bin = false →
  truthy (answer os (Getenv "LLVM_HOME") w) = true →
  let llvm_home := value_of (answer os (Getenv "LLVM_HOME") w) in
  outcome (run os (find_clang_format llvm_bin verbose) w) =
  inl (Failure (if answer os (Isdir llvm_home) w
                then "Could not find the clang-format command!"
                else "LLVM_HOME not found: " +:+ llvm_home)).
Proof.
  intros Hbin Hhome. unfold find_clang_format, outcome.
  rewrite Hbin. simpl. rewrite Hhome. simpl.
  by destruct (answer os (Isdir _) w), verbose.
Qed.

(** X26.  When the search comes to the Homebrew directory of LLVM and
    finds it empty, it takes the first of no versions: the run ends with
    [IndexError], not with a failure message. *)
Theorem find_clang_format_empty_cellar llvm_bin verbose w :
  truthy llvm_bin = false →
  truthy (answer os (Getenv "LLVM_HOME") w) = false →
  answer os (Isfile "/usr/bin/clang-format") w = false →
  answer os (Isfile "/usr/local/bin/clang-format") w = false →
  answer os (Isdir "/usr/local/Cellar/llvm") w = true →
  answer os (Listdir "/usr/local/Cellar/llvm") w = [] →
  run os (find_clang_format llvm_bin verbose) w
  = ([], w, inl (Uncaught IndexError)).
Proof.
  intros Hbin Hhome Husr Hlocal Hcellar Hversions. unfold find_clang_format.
  rewrite Hbin. simpl. rewrite Hhome. simpl. rewrite Husr. simpl.
  rewrite Hlocal. simpl. rewrite Hcellar. simpl. by rewrite Hversions.
Qed.

(** ** [link_clang_format] *)

(** X11.  [link_clang_format] attempts at most one change: when
    [.clang-format] is no link and this is no test it makes the link to
    [clang-format] in the scripts directory, and an attempt that is refused
    ends the run with [OSError]; otherwise it changes nothing and
    returns.  That [.clang-format] is a regular file does not keep it from
    making the link. *)
Theorem link_clang_format_attempts thla_scripts test_only verbose w :
  let r := run os (link_clang_format thla_scripts test_only verbose) w in
  let refused := negb (react os (symlink_to thla_scripts) w).1 in
  if answer os (Islink ".clang-format") w || test_only then
    filter (λ e, changes_files e = true) (log_of r) = [] ∧
    outcome r = inr tt
  else
    filter (λ e, changes_files e = true) (log_of r)
      = [Performed (symlink_to thla_scripts) (negb refused)] ∧
    outcome r = if refused then inl (Uncaught OSError) else inr tt.
Proof.
  unfold link_clang_format, symlink_to, log_of, outcome. simpl.
  destruct (answer os (Isfile ".clang-format") w), verbose; simpl;
    destruct (answer os (Islink ".clang-format") w); simpl; try done;
    destruct test_only; simpl; try done;
    destruct (react os _ w) as [[] w1]; simpl; done.
Qed.

(** ** [format_file] *)

(** X12.  [format_file] returns [True], its error flag, in exactly two
    cases, the file being a link and the file not existing, and then it has
    printed the error and done nothing else; in every other case it does
    not return [True]: when it returns, it returns [None]. *)
Theorem format_file_error_flag file_path cmd scripts in_place test_only
  verbose w :
  let r := run os (format_file file_path cmd scripts in_place test_only
                     verbose) w in
  if answer os (Isfile file_path) w then
    if answer os (Islink file_path) w then
      r = ([Printed (Error ("File is a link: " +:+ file_path))], w,
           inr (Some true))
    else ∀ flag, outcome r = inr flag → flag = None
  else
    r = ([Printed (Error ("File does not exist: " +:+ file_path))], w,
         inr (Some true)).
Proof.
  unfold format_file. cbn [bind ask run].
  destruct (answer os (Isfile file_path) w); [|reflexivity].
  cbn [bind ask run].
  destruct (answer os (Islink file_path) w); [reflexivity|].
  intros flag.
  match goal with |- outcome (run os ?p w) = _ → _ =>
    assert (Hr : returns os (λ a, a = None) p) end.
  { apply returns_ask; intros ?.
    do 5 (apply returns_bind; intros ?). by apply returns_ret. }
  apply Hr.
Qed.

(** X13.  A file named without a directory part has the empty string for
    its directory, and [format_file] changes to that directory: where the
    system refuses that, as it does for the empty path, the run ends with
    [OSError] before anything is linked, made or formatted. *)
Theorem format_file_bare_name file_path cmd scripts in_place test_only
  verbose w :
  rsplit_slash file_path = None →
  answer os (Isfile file_path) w = true →
  answer os (Islink file_path) w = false →
  (react os (Chdir "") w).1 = false →
  let r := run os (format_file file_path cmd scripts in_place test_only
                     verbose) w in
  log_of r = [Performed (Chdir "") false] ∧
  outcome r = inl (Uncaught OSError).
Proof.
  intros Hbare Hfile Hlink Hrefused. unfold format_file, os_path_dirname.
  rewrite Hbare. unfold log_of, outcome. cbn [bind ask run].
  rewrite Hfile. cbn [bind ask run]. rewrite Hlink. simpl.
  destruct (react os (Chdir "") w) as [ok w1]. simpl in Hrefused.
  by subst ok.
Qed.

(** ** [format_directory] and [cleanup_directory] *)

Lemma run_clang_format_formats file cmd scripts in_place test_only verbose :
  recognised file = true →
  always os (formats_only cmd scripts in_place)
    (run_clang_format file cmd in_place test_only verbose).
Proof.
  intros Hfile. unfold run_clang_format.
  destruct in_place; repeat always_step; exists file; by split.
Qed.

Lemma link_clang_format_formats cmd scripts in_place test_only verbose :
  always os (formats_only cmd scripts in_place)
    (link_clang_format scripts test_only verbose).
Proof. unfold link_clang_format. repeat always_step. Qed.

Lemma make_formatted_directory_formats cmd scripts in_place test_only
  verbose :
  always os (formats_only cmd scripts in_place)
    (make_formatted_directory in_place test_only verbose).
Proof.
  unfold make_formatted_directory. destruct in_place; repeat always_step.
Qed.

(** X14.  All [format_directory] ever does is to move between directories,
    to link the format specification from the scripts directory, to make
    the directory [formatted], and that only when not formatting in place,
    and to run the formatter, with the command line of the mode, on files
    whose names end in [.hh], [.h], [.cpp] or [.c]; it removes nothing and
    announces no success. *)
Theorem format_directory_formats_only dir_path cmd scripts in_place
  test_only verbose w :
  Forall (formats_only cmd scripts in_place)
    (log_of (run os (format_directory dir_path cmd scripts in_place
                       test_only verbose) w)).
Proof.
  revert w. change (always os (formats_only cmd scripts in_place)
    (format_directory dir_path cmd scripts in_place test_only verbose)).
  unfold format_directory.
  repeat first [ apply link_clang_format_formats
               | apply make_formatted_directory_formats
               | by apply run_clang_format_formats
               | always_step ].
Qed.

(** X15.  Whenever [format_directory] returns, the last thing it did was
    to change back, successfully, to the directory it was called in. *)
Theorem format_directory_returns_home dir_path cmd scripts in_place test_only
  verbose w r :
  outcome (run os (format_directory dir_path cmd scripts in_place test_only
                     verbose) w) = inr r →
  last (log_of (run os (format_directory dir_path cmd scripts in_place
                          test_only verbose) w))
  = Some (Performed (Chdir (answer os Abspath_curdir w)) true).
Proof.
  apply (closes_at_last os anything). unfold format_directory.
  destruct verbose; unfold status, pass; cbn [bind];
    [apply closes_at_say; [done|]|];
    unfold ask; cbn [bind]; apply closes_at_ask, closes_at_all;
    repeat first [ apply always_anything | closes_step ].
Qed.

(** X16.  All [cleanup_directory] ever does is to move between directories,
    to remove files, and to remove the directory [formatted]; it links,
    makes and formats nothing and announces no success. *)
Theorem cleanup_directory_cleans_only dir_path test_only verbose w :
  Forall cleans_only
    (log_of (run os (cleanup_directory dir_path test_only verbose) w)).
Proof.
  revert w. change (always os cleans_only
    (cleanup_directory dir_path test_only verbose)).
  unfold cleanup_directory. repeat always_step.
Qed.

(** X17.  Whenever [cleanup_directory] returns, the last thing it did was
    to change back, successfully, to the directory it was called in. *)
Theorem cleanup_directory_returns_home dir_path test_only verbose w r :
  outcome (run os (cleanup_directory dir_path test_only verbose) w) = inr r →
  last (log_of (run os (cleanup_directory dir_path test_only verbose) w))
  = Some (Performed (Chdir (answer os Abspath_curdir w)) true).
Proof.
  apply (closes_at_last os anything). unfold cleanup_directory.
  destruct verbose; unfold status, pass; cbn [bind];
    [apply closes_at_say; [done|]|];
    unfold ask; cbn [bind]; apply closes_at_ask, closes_at_all;
    repeat first [ apply always_anything | closes_step ].
Qed.

(** ** [main] with [--test] *)

Lemma link_clang_format_dry thla_scripts verbose :
  always os harmless (link_clang_format thla_scripts true verbose).
Proof. unfold link_clang_format. repeat always_step. Qed.

Lemma make_formatted_directory_dry in_place verbose :
  always os harmless (make_formatted_directory in_place true verbose).
Proof. unfold make_formatted_directory. repeat always_step. Qed.

Lemma run_clang_format_dry file cmd in_place verbose :
  always os harmless (run_clang_format file cmd in_place true verbose).
Proof. unfold run_clang_format. repeat always_step. Qed.

Lemma format_file_dry file_path cmd scripts in_place verbose :
  always os harmless
    (format_file file_path cmd scripts in_place true verbose).
Proof.
  unfold format_file.
  repeat first [ apply link_clang_format_dry
               | apply make_formatted_directory_dry
               | apply run_clang_format_dry
               | always_step ].
Qed.

Lemma format_directory_dry dir_path cmd scripts in_place verbose :
  always os harmless
    (format_directory dir_path cmd scripts in_place true verbose).
Proof.
  unfold format_directory.
  repeat first [ apply link_clang_format_dry
               | apply make_formatted_directory_dry
               | apply run_clang_format_dry
               | always_step ].
Qed.

Lemma cleanup_directory_dry dir_path verbose :
  always os harmless (cleanup_directory dir_path true verbose).
Proof. unfold cleanup_directory. repeat always_step. Qed.

Lemma find_clang_format_harmless llvm_bin verbose :
  always os harmless (find_clang_format llvm_bin verbose).
Proof.
  intros w.
  destruct (find_clang_format_reads_only llvm_bin verbose w) as [_ Hlog].
  eapply Forall_impl; [exact Hlog|]. by intros e [text ->].
Qed.

(** X18.  With [--test] the script is a dry run: whatever the other
    options and whatever it finds, no run of [main] attempts to link, make,
    remove or format anything. *)
Theorem main_dry_run args :
  test args = true → always os harmless (main args).
Proof.
  destruct args as [c f i l t h v]. simpl. intros ->. unfold main.
  cbn [clean file in_place llvm_bin thla_home test verbose].
  repeat first [ apply find_clang_format_harmless
               | apply format_file_dry
               | apply format_directory_dry
               | apply cleanup_directory_dry
               | always_step ].
Qed.

(** ** The end of [main] *)

Lemma find_clang_format_no_success llvm_bin verbose :
  always os no_success (find_clang_format llvm_bin verbose).
Proof.
  intros w.
  destruct (find_clang_format_reads_only llvm_bin verbose w) as [_ Hlog].
  eapply Forall_impl; [exact Hlog|]. by intros e [text ->].
Qed.

Lemma link_clang_format_no_success scripts test_only verbose :
  always os no_success (link_clang_format scripts test_only verbose).
Proof. unfold link_clang_format. repeat always_step. Qed.

Lemma make_formatted_directory_no_success in_place test_only verbose :
  always os no_success (make_formatted_directory in_place test_only verbose).
Proof. unfold make_formatted_directory. repeat always_step. Qed.

Lemma run_clang_format_no_success file cmd in_place test_only verbose :
  always os no_success (run_clang_format file cmd in_place test_only verbose).
Proof. unfold run_clang_format. repeat always_step. Qed.

Ltac no_success_step :=
  first [ apply find_clang_format_no_success
        | apply link_clang_format_no_success
        | apply make_formatted_directory_no_success
        | apply run_clang_format_no_success
        | always_step ].

Lemma format_file_no_success file_path cmd scripts in_place test_only
  verbose :
  always os no_success
    (format_file file_path cmd scripts in_place test_only verbose).
Proof. unfold format_file. repeat no_success_step. Qed.

Lemma format_directory_no_success dir_path cmd scripts in_place test_only
  verbose :
  always os no_success
    (format_directory dir_path cmd scripts in_place test_only verbose).
Proof. unfold format_directory. repeat no_success_step. Qed.

Lemma cleanup_directory_no_success dir_path test_only verbose :
  always os no_success (cleanup_directory dir_path test_only verbose).
Proof. unfold cleanup_directory. repeat no_success_step. Qed.

(** X20.  [main] announces success once, as the last thing it does, and
    only when it returns: a run that returns ends with the success message
    of its mode and has announced no success before; a run that stops has
    announced none. *)
Theorem main_announces_success_last args w :
  let r := run os (main args) w in
  match outcome r with
  | inl _ => Forall no_success (log_of r)
  | inr _ => ∃ log, log_of r = log ++ [Printed (Success (final_message args))]
                    ∧ Forall no_success log
  end.
Proof.
  revert w.
  change (closes os no_success (Printed (Success (final_message args)))
            (main args)).
  destruct args as [c f i l t h v]. unfold main, final_message.
  cbn [clean file in_place llvm_bin thla_home test verbose].
  repeat first
    [ closes_step
    | solve [ repeat first [ apply format_file_no_success
                           | apply format_directory_no_success
                           | apply cleanup_directory_no_success
                           | apply find_clang_format_no_success
                           | always_step ] ] ].
  all: by apply closes_last_say.
Qed.

(** ** The question before formatting in place *)

Lemma stops_harmless_stop {A} (s : stop) w :
  stops_harmless (run os (@Stop A s) w).
Proof. split; [by exists s|constructor]. Qed.

Lemma stops_harmless_ask {A X} (q : query X) (k : X → Proc A) w :
  stops_harmless (run os (k (answer os q w)) w) →
  stops_harmless (run os (Ask q k) w).
Proof. done. Qed.

Lemma stops_harmless_say {A} (m : message) (k : Proc A) w :
  stops_harmless (run os k w) → stops_harmless (run os (Say m k) w).
Proof.
  unfold stops_harmless, outcome, log_of. cbn [run].
  destruct (run os k w) as [[log w'] r]; cbn [fst snd]. intros [? ?].
  split; [done|]. by constructor.
Qed.

Lemma stops_harmless_chdir {A} path (k : bool → Proc A) w :
  stops_harmless (run os (k (react os (Chdir path) w).1)
                    (react os (Chdir path) w).2) →
  stops_harmless (run os (Act (Chdir path) k) w).
Proof.
  unfold stops_harmless, outcome, log_of. cbn [run].
  destruct (react os (Chdir path) w) as [ok w1]; cbn [fst snd].
  destruct (run os (k ok) w1) as [[log w'] r]; cbn [fst snd]. intros [? ?].
  split; [done|]. by constructor.
Qed.

Lemma stops_harmless_bind_find {B} llvm_bin verbose
  (f : option string → Proc B) w :
  (∀ a, stops_harmless (run os (f a) w)) →
  stops_harmless (run os (bind (find_clang_format llvm_bin verbose) f) w).
Proof.
  intros Hf. rewrite FormatCode_facts.run_bind.
  pose proof (find_clang_format_harmless llvm_bin verbose w) as Hlog.
  destruct (find_clang_format_reads_only llvm_bin verbose w) as [Hw _].
  unfold stops_harmless, world_of, outcome, log_of in *.
  destruct (run os (find_clang_format llvm_bin verbose) w)
    as [[log w'] [s|a]]; simpl in *.
  - split; [by exists s|done].
  - subst w'. specialize (Hf a).
    destruct (run os (f a) w) as [[log' w''] r]; simpl in *.
    destruct Hf as [? ?]. split; [done|]. by apply Forall_app.
Qed.

#[local] Arguments run : simpl never.

Ltac stop_step :=
  cbn [bind status warning error pass failure act ask andb negb];
  lazymatch goal with
  | |- stops_harmless (run _ (Stop _) _) => by apply stops_harmless_stop
  | |- stops_harmless (run _ (Ask _ _) _) => apply stops_harmless_ask
  | |- stops_harmless (run _ (Say _ _) _) => apply stops_harmless_say
  | |- stops_harmless (run _ (Act (Chdir _) _) _) =>
      apply stops_harmless_chdir
  end.

(** X19.  Formatting in place, when it is no test, waits for the user: an
    answer other than [y] ends the run, and up to then nothing was linked,
    made, removed or formatted.  The answer is the one given once the home
    directory has been entered. *)
Theorem main_declined_stops (w : W) (args : Args) :
  in_place args = true → test args = false →
  answer os (Raw_input confirmation_prompt) (at_home os w) ≠ "y" →
  stops_harmless (run os (main args) w).
Proof.
  intros Hin_place Htest Hanswer. unfold main.
  destruct (truthy (thla_home args)); [by stop_step|].
  unfold at_home in Hanswer.
  destruct (home_of os w) as [home|] eqn:Hhome; unfold home_of in Hhome;
    stop_step;
    destruct (answer os (Getenv "TRICKHLA_HOME") w) as [home1|];
    simplify_eq; [|stop_step; rewrite Hhome|
                  stop_step; rewrite Hhome; by stop_step].
  all: stop_step; destruct (answer os (Isdir home) w) eqn:Hdir;
    [|by stop_step].
  all: destruct (verbose args) eqn:Hverbose; repeat stop_step.
  all: destruct (react os (Chdir home) w) as [[] w1]; cbn [fst snd] in *;
    [|by stop_step].
  all: stop_step;
    destruct (answer os (Isdir "include") w1) eqn:?; cbn [negb];
    [|by stop_step].
  all: stop_step;
    destruct (answer os (Isdir "source") w1) eqn:?; cbn [negb];
    [|by stop_step].
  all: stop_step;
    destruct (answer os (Isdir "models") w1) eqn:?; cbn [negb];
    [|by stop_step].
  all: stop_step;
    destruct (answer os (Isdir "scripts") w1) eqn:?; cbn [negb];
    [|by stop_step].
  all: cbn [bind pass]; apply stops_harmless_bind_find;
    intros [cmd|]; [|by stop_step].
  all: cbn [bind]; rewrite Hin_place, Htest; cbn [andb negb];
    destruct (clean args); cbn [andb bind pass]; [by stop_step|].
  all: destruct (truthy (file args)); cbn [andb bind pass].
  all: repeat stop_step; fold confirmation_prompt;
    rewrite bool_decide_eq_false_2 by done; by repeat stop_step.
Qed.

End Runs.

(** The theorems with a premise, on concrete inputs. *)

Lemma find_clang_format_returns_a_file_witness :
  outcome (run fs_os (find_clang_format None false) thla_tree)
    = inr (Some "/usr/bin/clang-format") ∧
  ∃ path, Some "/usr/bin/clang-format" = Some path ∧
          answer fs_os (Isfile path) thla_tree = true.
Proof.
  split; [reflexivity|].
  apply (find_clang_format_returns_a_file fs_os None false thla_tree).
  reflexivity.
Defined.

Lemma llvm_home_never_yields_a_command_witness :
  truthy None = false ∧
  truthy (answer fs_os (Getenv "LLVM_HOME") llvm_home_tree) = true ∧
  outcome (run fs_os (find_clang_format None true) llvm_home_tree) =
  inl (Failure "Could not find the clang-format command!").
Proof.
  split; [reflexivity|]. split; [reflexivity|].
  apply (llvm_home_never_yields_a_command fs_os None true llvm_home_tree);
    reflexivity.
Defined.

Lemma find_clang_format_empty_cellar_witness :
  truthy None = false ∧
  truthy (answer fs_os (Getenv "LLVM_HOME") empty_cellar_tree) = false ∧
  answer fs_os (Isfile "/usr/bin/clang-format") empty_cellar_tree = false ∧
  answer fs_os (Isfile "/usr/local/bin/clang-format") empty_cellar_tree
    = false ∧
  answer fs_os (Isdir "/usr/local/Cellar/llvm") empty_cellar_tree = true ∧
  answer fs_os (Listdir "/usr/local/Cellar/llvm") empty_cellar_tree = [] ∧
  run fs_os (find_clang_format None true) empty_cellar_tree
  = ([], empty_cellar_tree, inl (Uncaught IndexError)).
Proof.
  do 6 (split; [reflexivity|]).
  apply (find_clang_format_empty_cellar fs_os None true empty_cellar_tree);
    reflexivity.
Defined.

Lemma format_file_bare_name_witness :
  let r := run fs_os
             (format_file "Object.cpp" "/usr/bin/clang-format"
                "/thla/scripts" false false false) source_directory_tree in
  rsplit_slash "Object.cpp" = None ∧
  answer fs_os (Isfile "Object.cpp") source_directory_tree = true ∧
  answer fs_os (Islink "Object.cpp") source_directory_tree = false ∧
  (react fs_os (Chdir "") source_directory_tree).1 = false ∧
  log_of r = [Performed (Chdir "") false] ∧
  outcome r = inl (Uncaught OSError).
Proof.
  cbn zeta. do 4 (split; [reflexivity|]).
  apply (format_file_bare_name fs_os "Object.cpp" "/usr/bin/clang-format"
           "/thla/scripts" false false false source_directory_tree);
    reflexivity.
Defined.

Lemma format_directory_returns_home_witness :
  let r := run fs_os
             (format_directory "/thla/source/TrickHLA"
                "/usr/bin/clang-format" "/thla/scripts" false true false)
             thla_tree in
  outcome r = inr false ∧
  last (log_of r) = Some (Performed (Chdir "/home/user") true).
Proof.
  cbn zeta. split; [reflexivity|].
  apply (format_directory_returns_home fs_os "/thla/source/TrickHLA"
           "/usr/bin/clang-format" "/thla/scripts" false true false
           thla_tree false).
  reflexivity.
Defined.

Lemma cleanup_directory_returns_home_witness :
  let r := run fs_os (cleanup_directory "/thla/include/TrickHLA" false false)
             thla_tree in
  outcome r = inr tt ∧
  last (log_of r) = Some (Performed (Chdir "/home/user") true).
Proof.
  cbn zeta. split; [reflexivity|].
  apply (cleanup_directory_returns_home fs_os "/thla/include/TrickHLA"
           false false thla_tree tt).
  reflexivity.
Defined.

Lemma main_dry_run_witness :
  test dry_run_args = true ∧ always fs_os harmless (main dry_run_args).
Proof.
  split; [reflexivity|].
  apply (main_dry_run fs_os dry_run_args). reflexivity.
Defined.

Lemma main_declined_stops_witness :
  in_place in_place_args = true ∧ test in_place_args = false ∧
  answer fs_os (Raw_input confirmation_prompt)
    (at_home fs_os source_directory_tree) ≠ "y" ∧
  stops_harmless (run fs_os (main in_place_args) source_directory_tree).
Proof.
  assert (Hanswer :
    answer fs_os (Raw_input confirmation_prompt)
      (at_home fs_os source_directory_tree) ≠ "y").
  { vm_compute. discriminate. }
  split; [reflexivity|]. split; [reflexivity|]. split; [exact Hanswer|].
  apply (main_declined_stops fs_os source_directory_tree in_place_args);
    [reflexivity|reflexivity|exact Hanswer].
Defined.

End FormatCode_more.

(** * Part IX: properties of the command line of the input files *)

Module InputFile_facts.
Import InputFile.

Section Facts.
Context {F : Type} (float : string → option F).

Lemma parse_arguments_cons arg rest (s : state F) :
  parse_arguments float (arg :: rest) s =
  if bool_decide (arg = "-stop") then
    match rest with
    | time :: rest' =>
        match float time with
        | Some d =>
            parse_arguments float rest'
              (assign (set_run_duration (Some d)) s)
        | None => raise_exception (ValueError time) s
        end
    | [] =>
        assign (set_print_usage true)
          (print "ERROR: Missing -stop [time] argument." s)
    end
  else if bool_decide (arg = "-nostop") then
    parse_arguments float rest (assign (set_run_duration None) s)
  else if bool_decide (arg = "-h") || bool_decide (arg = "-help") then
    parse_arguments float rest (assign (set_print_usage true) s)
  else if bool_decide (arg = "-verbose") then
    match rest with
    | value :: rest' =>
        if bool_decide (value = "on") then
          parse_arguments float rest' (assign (set_verbose true) s)
        else if bool_decide (value = "off") then
          parse_arguments float rest' (assign (set_verbose false) s)
        else
          parse_arguments float rest'
            (assign (set_print_usage true)
               (print ("ERROR: Unknown -verbose argument: " +:+ value) s))
    | [] =>
        assign (set_print_usage true)
          (print "ERROR: Missing -verbose [on|off] argument." s)
    end
  else
    parse_arguments float rest
      (assign (set_print_usage true)
         (print ("ERROR: Unknown command line argument " +:+ arg) s)).
Proof. reflexivity. Qed.

#[local] Arguments parse_arguments : simpl never.

(** Induction over the turns of the loop, one case for each way through
    the [if] chain. *)
Lemma parse_arguments_turns (P : list string → state F → state F → Prop) :
  (∀ s, P [] s s) →
  (∀ time d rest s,
     float time = Some d →
     let s1 := assign (set_run_duration (Some d)) s in
     P rest s1 (parse_arguments float rest s1) →
     P ("-stop" :: time :: rest) s (parse_arguments float rest s1)) →
  (∀ time rest s,
     float time = None →
     P ("-stop" :: time :: rest) s (raise_exception (ValueError time) s)) →
  (∀ s,
     P ["-stop"] s
       (assign (set_print_usage true)
          (print "ERROR: Missing -stop [time] argument." s))) →
  (∀ rest s,
     let s1 := assign (set_run_duration None) s in
     P rest s1 (parse_arguments float rest s1) →
     P ("-nostop" :: rest) s (parse_arguments float rest s1)) →
  (∀ arg rest s,
     arg = "-h" ∨ arg = "-help" →
     let s1 := assign (set_print_usage true) s in
     P rest s1 (parse_arguments float rest s1) →
     P (arg :: rest) s (parse_arguments float rest s1)) →
  (∀ value (on : bool) rest s,
     value = (if on then "on" else "off") →
     let s1 := assign (set_verbose on) s in
     P rest s1 (parse_arguments float rest s1) →
     P ("-verbose" :: value :: rest) s (parse_arguments float rest s1)) →
  (∀ value rest s,
     value ≠ "on" → value ≠ "off" →
     let s1 := assign (set_print_usage true)
                 (print ("ERROR: Unknown -verbose argument: " +:+ value) s) in
     P rest s1 (parse_arguments float rest s1) →
     P ("-verbose" :: value :: rest) s (parse_arguments float rest s1)) →
  (∀ s,
     P ["-verbose"] s
       (assign (set_print_usage true)
          (print "ERROR: Missing -verbose [on|off] argument." s))) →
  (∀ arg rest s,
     arg ∉ ["-stop"; "-nostop"; "-h"; "-help"; "-verbose"] →
     let s1 :=
       assign (set_print_usage true)
         (print ("ERROR: Unknown command line argument " +:+ arg) s) in
     P rest s1 (parse_arguments float rest s1) →
     P (arg :: rest) s (parse_arguments float rest s1)) →
  ∀ args s, P args s (parse_arguments float args s).
Proof.
  intros Hnil Hstop Hraise Hstop_missing Hnostop Hhelp Hverbose Hunknown
    Hverbose_missing Hother args.
  induction args as [args IH] using (induction_ltof1 _ (@length _)).
  unfold ltof in IH. intros s.
  destruct args as [|arg rest]; [apply Hnil|].
  rewrite parse_arguments_cons.
  destruct (decide (arg = "-stop")) as [->|Hne1].
  { rewrite bool_decide_eq_true_2 by done.
    destruct rest as [|time rest]; [apply Hstop_missing|].
    destruct (float time) as [d|] eqn:Hd; [|by apply Hraise].
    apply Hstop; [done|]. apply IH. simpl; lia. }
  rewrite bool_decide_eq_false_2 by done.
  destruct (decide (arg = "-nostop")) as [->|Hne2].
  { rewrite bool_decide_eq_true_2 by done.
    apply Hnostop. apply IH. simpl; lia. }
  rewrite bool_decide_eq_false_2 by done.
  destruct (decide (arg = "-h")) as [->|Hne3].
  { rewrite bool_decide_eq_true_2 by done. cbn [orb].
    apply Hhelp; [by left|]. apply IH. simpl; lia. }
  rewrite (bool_decide_eq_false_2 (arg = "-h")) by done. cbn [orb].
  destruct (decide (arg = "-help")) as [->|Hne4].
  { rewrite bool_decide_eq_true_2 by done.
    apply Hhelp; [by right|]. apply IH. simpl; lia. }
  rewrite bool_decide_eq_false_2 by done.
  destruct (decide (arg = "-verbose")) as [->|Hne5].
  { rewrite bool_decide_eq_true_2 by done.
    destruct rest as [|value rest]; [apply Hverbose_missing|].
    destruct (decide (value = "on")) as [->|Hon].
    { rewrite bool_decide_eq_true_2 by done.
      apply (Hverbose "on" true); [done|]. apply IH. simpl; lia. }
    rewrite bool_decide_eq_false_2 by done.
    destruct (decide (value = "off")) as [->|Hoff].
    { rewrite bool_decide_eq_true_2 by done.
      apply (Hverbose "off" false); [done|]. apply IH. simpl; lia. }
    rewrite bool_decide_eq_false_2 by done.
    apply Hunknown; [done..|]. apply IH. simpl; lia. }
  rewrite bool_decide_eq_false_2 by done.
  apply Hother; [|apply IH; simpl; lia].
  rewrite !not_elem_of_cons. repeat split; try done. apply not_elem_of_nil.
Qed.

Lemma is_error_line_intro text : is_error_line (Line ("ERROR: " +:+ text)).
Proof. by exists text. Qed.

(** What [parse_command_line] adds to the events. *)
Lemma parse_arguments_events (args : list string) (s : state F) :
  ∃ new,
    events (parse_arguments float args s) = events s ++ new ∧
    Forall is_error_line new ∧
    (print_usage (vars s) = true ∨ new ≠ [] →
     print_usage (vars (parse_arguments float args s)) = true).
Proof.
  revert args s.
  apply (parse_arguments_turns (λ args s s',
    ∃ new, events s' = events s ++ new ∧ Forall is_error_line new ∧
           (print_usage (vars s) = true ∨ new ≠ [] →
            print_usage (vars s') = true))); cbn zeta.
  - intros s. exists []. rewrite app_nil_r. split; [done|].
    split; [done|]. by intros [?|?].
  - intros time d rest s _ (new & -> & Herr & Hset). by exists new.
  - intros time rest s _. exists []. rewrite app_nil_r.
    split; [done|]. split; [done|]. by intros [?|?].
  - intros s. eexists [_]. split; [done|].
    split; [repeat constructor; apply is_error_line_intro|done].
  - intros rest s (new & -> & Herr & Hset). by exists new.
  - intros arg rest s _ (new & -> & Herr & Hset). exists new.
    split; [done|]. split; [done|]. intros _. apply Hset. by left.
  - intros value on rest s _ (new & -> & Herr & Hset). by exists new.
  - intros value rest s _ _ (new & -> & Herr & Hset).
    eexists (_ :: new). cbn [events print assign]. rewrite <- app_assoc.
    split; [done|].
    split; [constructor; [apply is_error_line_intro|done]|].
    intros _. apply Hset. by left.
  - intros s. eexists [_]. split; [done|].
    split; [repeat constructor; apply is_error_line_intro|done].
  - intros arg rest s _ (new & -> & Herr & Hset).
    eexists (_ :: new). cbn [events print assign]. rewrite <- app_assoc.
    split; [done|].
    split; [constructor; [apply is_error_line_intro|done]|].
    intros _. apply Hset. by left.
Qed.

Lemma parse_arguments_without_stop (args : list string) (s : state F) :
  "-stop" ∉ args →
  raised (parse_arguments float args s) = raised s ∧
  ("-nostop" ∉ args →
   run_duration (vars (parse_arguments float args s))
   = run_duration (vars s)).
Proof.
  revert args s.
  apply (parse_arguments_turns (λ args s s',
    "-stop" ∉ args →
    raised s' = raised s ∧
    ("-nostop" ∉ args → run_duration (vars s') = run_duration (vars s))));
    cbn zeta.
  - done.
  - intros time d rest s _ _ Hin. destruct Hin. by left.
  - intros time rest s _ Hin. destruct Hin. by left.
  - intros s Hin. destruct Hin. by left.
  - intros rest s IH [_ Hin]%not_elem_of_cons.
    destruct (IH Hin) as [-> _]. split; [done|].
    intros Hno. destruct Hno. by left.
  - intros arg rest s _ IH [_ Hin]%not_elem_of_cons.
    destruct (IH Hin) as [-> Hrest]. split; [done|].
    intros [_ Hno]%not_elem_of_cons. by rewrite Hrest.
  - intros value on rest s _ IH [_ [_ Hin]%not_elem_of_cons]%not_elem_of_cons.
    destruct (IH Hin) as [-> Hrest]. split; [done|].
    intros [_ [_ Hno]%not_elem_of_cons]%not_elem_of_cons. by rewrite Hrest.
  - intros value rest s _ _ IH
      [_ [_ Hin]%not_elem_of_cons]%not_elem_of_cons.
    destruct (IH Hin) as [-> Hrest]. split; [done|].
    intros [_ [_ Hno]%not_elem_of_cons]%not_elem_of_cons. by rewrite Hrest.
  - done.
  - intros arg rest s _ IH [_ Hin]%not_elem_of_cons.
    destruct (IH Hin) as [-> Hrest]. split; [done|].
    intros [_ Hno]%not_elem_of_cons. by rewrite Hrest.
Qed.

Lemma parse_arguments_without_verbose (args : list string) (s : state F) :
  "-verbose" ∉ args →
  verbose (vars (parse_arguments float args s)) = verbose (vars s).
Proof.
  revert args s.
  apply (parse_arguments_turns (λ args s s',
    "-verbose" ∉ args → verbose (vars s') = verbose (vars s))); cbn zeta.
  - done.
  - intros time d rest s _ IH [_ [_ Hin]%not_elem_of_cons]%not_elem_of_cons.
    by rewrite (IH Hin).
  - done.
  - done.
  - intros rest s IH [_ Hin]%not_elem_of_cons. by rewrite (IH Hin).
  - intros arg rest s _ IH [_ Hin]%not_elem_of_cons. by rewrite (IH Hin).
  - intros value on rest s _ _ Hin. destruct Hin. by left.
  - intros value rest s _ _ _ Hin. destruct Hin. by left.
  - intros s Hin. destruct Hin. by left.
  - intros arg rest s _ IH [_ Hin]%not_elem_of_cons. by rewrite (IH Hin).
Qed.

Lemma parse_arguments_rendered (opts : list setting) (s : state F) :
  Forall (readable float) opts →
  parse_arguments float (concat (render <$> opts)) s =
  assign (λ g, foldl (effect float) g opts) s.
Proof.
  intros Hopts. revert s.
  induction Hopts as [|o opts Ho _ IH]; intros s; [by destruct s|].
  rewrite fmap_cons. cbn [concat foldl].
  destruct o as [time| |[]|[]]; cbn [render app];
    rewrite parse_arguments_cons;
    repeat match goal with
      | |- context [bool_decide (?a = ?b)] =>
          let r := eval vm_compute in (bool_decide (a = b)) in
          change (bool_decide (a = b)) with r
      end;
    cbn [orb]; try (by rewrite IH).
  destruct Ho as [d Hd]. cbn [effect]. rewrite Hd. by rewrite IH.
Qed.

(** X21.  Every line [parse_command_line] prints is an error line, and once
    it has printed one, or has found the usage flag set, the usage flag is
    set when it ends, whether it returns or raises: the flag is never
    cleared, and no error goes without the request for the usage message. *)
Theorem parse_errors_request_usage (argv : list string) (s : state F) :
  let s' := parse_command_line float argv s in
  ∃ new,
    events s' = events s ++ new ∧
    Forall is_error_line new ∧
    (print_usage (vars s) = true ∨ new ≠ [] → print_usage (vars s') = true).
Proof. apply parse_arguments_events. Qed.

(** X22.  Without [-stop] among the arguments after the executable and the
    input file, [float] is never called, so [parse_command_line] raises
    nothing; without [-nostop] as well, the run duration stays as it was. *)
Theorem parse_without_stop (argv : list string) (s : state F) :
  "-stop" ∉ drop 2 argv →
  let s' := parse_command_line float argv s in
  raised s' = raised s ∧
  ("-nostop" ∉ drop 2 argv →
   run_duration (vars s') = run_duration (vars s)).
Proof. apply parse_arguments_without_stop. Qed.

(** X23.  Without [-verbose] among the arguments after the executable and
    the input file, the verbose flag stays as it was, whether
    [parse_command_line] returns or raises. *)
Theorem parse_without_verbose (argv : list string) (s : state F) :
  "-verbose" ∉ drop 2 argv →
  verbose (vars (parse_command_line float argv s)) = verbose (vars s).
Proof. apply parse_arguments_without_verbose. Qed.

(** X24.  A command line that is written option by option, with times
    [float] reads, is parsed without a line printed and without an
    exception, and sets the globals option by option, a later option
    overriding an earlier one. *)
Theorem parse_rendered (executable input_file : string)
  (opts : list setting) (s : state F) :
  Forall (readable float) opts →
  parse_command_line float
    (executable :: input_file :: concat (render <$> opts)) s =
  assign (λ g, foldl (effect float) g opts) s.
Proof. apply parse_arguments_rendered. Qed.

(** X25.  The start of the input file.  When the command line raises, only
    error lines were printed.  Otherwise either nothing at all was printed, the
    usage flag is not set and no call to terminate was made, or the events
    are error lines, possibly none, then the usage message, then the call
    that terminates the simulation with return code -1. *)
Theorem startup_usage_after_errors (default_run_duration : F)
  (argv : list string) :
  let s := startup float default_run_duration argv in
  match raised s with
  | Some _ => Forall is_error_line (events s)
  | None =>
      (events s = [] ∧ print_usage (vars s) = false) ∨
      (∃ errors, events s = errors ++ usage_events ∧
                 Forall is_error_line errors)
  end.
Proof.
  unfold startup, parse_command_line. cbn zeta.
  match goal with
  | |- context [parse_arguments float ?args ?s0] =>
      destruct (parse_arguments_events args s0)
        as (new & Hnew & Herr & Hset);
      destruct (parse_arguments float args s0) as [g ev r]
  end.
  cbn [events vars raised] in *. subst ev. rewrite app_nil_l.
  destruct r as [e|]; cbn [raised events]; [done|].
  destruct (print_usage g) eqn:Husage; cbn [raised events].
  - right. exists new. split; [|done].
    unfold print_usage_message, exec_terminate_with_return, print.
    cbn [events vars raised]. by rewrite <- !app_assoc.
  - left. split; [|done]. destruct new as [|e new]; [done|].
    assert (false = true) by (apply Hset; by right). done.
Qed.

End Facts.

(** The theorems with a premise, on concrete inputs. *)

Lemma parse_without_stop_witness :
  let argv := "S_main.exe" :: "RUN_wb1/input.py" :: quiet_help_arguments in
  let s' := parse_command_line example_float argv example_state in
  ("-stop" ∉ drop 2 argv) ∧
  raised s' = None ∧
  ("-nostop" ∉ drop 2 argv → run_duration (vars s') = Some 70%Z).
Proof.
  cbn zeta.
  assert (Hstop : "-stop" ∉ drop 2
            ("S_main.exe" :: "RUN_wb1/input.py" :: quiet_help_arguments)).
  { refine (bool_decide_unpack _ _). vm_compute. exact I. }
  split; [exact Hstop|].
  exact (parse_without_stop example_float _ example_state Hstop).
Defined.

Lemma parse_without_verbose_witness :
  let argv := "S_main.exe" :: "RUN_wb1/input.py" :: stop_nostop_arguments in
  ("-verbose" ∉ drop 2 argv) ∧
  verbose (vars (parse_command_line example_float argv example_state)) = true.
Proof.
  cbn zeta.
  assert (Hverbose : "-verbose" ∉ drop 2
            ("S_main.exe" :: "RUN_wb1/input.py" :: stop_nostop_arguments)).
  { refine (bool_decide_unpack _ _). vm_compute. exact I. }
  split; [exact Hverbose|].
  exact (parse_without_verbose example_float _ example_state Hverbose).
Defined.

Lemma parse_rendered_witness :
  Forall (readable example_float) example_settings ∧
  parse_command_line example_float
    ("S_main.exe" :: "RUN_wb1/input.py"
       :: concat (render <$> example_settings)) example_state =
  assign (λ g, foldl (effect example_float) g example_settings)
    example_state.
Proof.
  assert (Hreadable : Forall (readable example_float) example_settings).
  { unfold example_settings.
    repeat constructor; cbn; unfold example_float; cbn; by eexists. }
  split; [exact Hreadable|].
  exact (parse_rendered example_float "S_main.exe" "RUN_wb1/input.py"
           example_settings example_state Hreadable).
Defined.

End InputFile_facts.
